(** * A simple TFTP client: shallow embedding of [main.py] and its properties

    The client negotiates one upload ([put]) or download ([get]) with a
    TFTP server over UDP.  The embedding keeps the program's own shape:

    - bytes objects are [list byte]; Python [str] values are [string]
      (code points up to U+00FF, which covers every ASCII file name);
    - [struct.pack] / [struct.unpack] are fallible and raise [struct_error];
    - the socket is scripted: the successive results of [recvfrom] are a
      list of [Recv]; once the script is exhausted every further wait ends
      in [socket.timeout];
    - every effect of a run (a datagram sent, a wait on the socket, a write
      to the local file, a printed line, closing the socket) is recorded, in
      program order, in the run's trace. *)

From Stdlib Require Import ZArith List Bool Lia String Ascii.
From Stdlib Require Import Strings.Byte.
Import ListNotations.

Local Open Scope Z_scope.
Local Open Scope list_scope.

(** ** Exceptions and fallible results *)

Inductive Exn : Type :=
| struct_error         (* struct.error: value out of range, or wrong buffer size *)
| OverflowError        (* sendto(): port must be 0-65535 *)
| FileNotFoundError    (* open(): no such file or directory *)
| ValueError.          (* open(): embedded null byte *)

Inductive Result (A : Type) : Type :=
| Ok (a : A)
| Raise (e : Exn).

Arguments Ok {A} a.
Arguments Raise {A} e.

Definition bind {A B : Type} (r : Result A) (k : A -> Result B) : Result B :=
  match r with
  | Ok a => k a
  | Raise e => Raise e
  end.

Notation "x <- r ;; k" := (bind r (fun x => k))
  (at level 61, r at next level, right associativity).

(** ** Bytes and the [struct] module *)

Definition Z_of_byte (b : byte) : Z := Z.of_N (Byte.to_N b).

Definition byte_of_Z (z : Z) : byte :=
  match Byte.of_N (Z.to_N z) with
  | Some b => b
  | None => x00
  end.

(** One ["H"] field of [struct.pack("!...")]: an unsigned 16-bit integer in
    network byte order; a value outside 0..65535 raises [struct.error]. *)
Definition pack_H (n : Z) : Result (list byte) :=
  if (0 <=? n) && (n <=? 65535)
  then Ok [byte_of_Z (Z.shiftr n 8); byte_of_Z (Z.land n 255)]
  else Raise struct_error.

(** [struct.pack("!HH", a, b)] *)
Definition pack_HH (a b : Z) : Result (list byte) :=
  ha <- pack_H a ;;
  hb <- pack_H b ;;
  Ok (ha ++ hb).

(** [struct.unpack("!HH", buf)]: the buffer must hold exactly 4 bytes. *)
Definition unpack_HH (buf : list byte) : Result (Z * Z) :=
  match buf with
  | [a1; a0; b1; b0] =>
      Ok (Z.lor (Z.shiftl (Z_of_byte a1) 8) (Z_of_byte a0),
          Z.lor (Z.shiftl (Z_of_byte b1) 8) (Z_of_byte b0))
  | _ => Raise struct_error
  end.

(** One ["<n>s"] field of [struct.pack]: the bytes are cut to [n] bytes when
    longer and padded with NUL bytes when shorter. *)
Definition pack_s (n : nat) (bs : list byte) : list byte :=
  firstn n bs ++ repeat x00 (n - List.length bs).

(** [str.encode()], UTF-8, on code points up to U+00FF. *)
Definition encode_char (c : ascii) : list byte :=
  let n := Z.of_N (N_of_ascii c) in
  if n <? 128 then [byte_of_Z n]
  else [byte_of_Z (Z.lor 192 (Z.shiftr n 6)); byte_of_Z (Z.lor 128 (Z.land n 63))].

Definition encode (s : string) : list byte :=
  flat_map encode_char (list_ascii_of_string s).

(** ** The program *)

(** [OPCODES] *)
Inductive OpcodeName : Type := RRQ | WRQ | DATA | ACK | ERROR.

Definition OPCODES (k : OpcodeName) : Z :=
  match k with
  | RRQ => 1
  | WRQ => 2
  | DATA => 3
  | ACK => 4
  | ERROR => 5
  end.

Definition BUFFER_SIZE : nat := 516.  (* Maximum TFTP packet size *)
Definition TIMEOUT : Z := 5.          (* Socket timeout in seconds *)

(** [build_request(opcode, filename, mode="octet")] *)
Definition build_request (opcode : Z) (filename : string) (mode : string)
  : Result (list byte) :=
  op <- pack_H opcode ;;
  Ok (op ++ pack_s (String.length filename + 1) (encode filename)
         ++ pack_s (String.length mode + 1) (encode mode)).

Definition octet : string := "octet".

(** *** The environment of a run *)

(** [server_address = (host, port)] *)
Definition Address : Type := (string * Z)%type.

(** The result of one [sock.recvfrom(BUFFER_SIZE)]: a datagram (from any
    peer: the program discards the sender's address), or [socket.timeout]
    after [TIMEOUT] seconds of silence.  Of a datagram longer than
    [BUFFER_SIZE] the program gets the first [BUFFER_SIZE] bytes only. *)
Inductive Recv : Type :=
| Datagram (payload : list byte)
| Silence.

(** The lines the program prints. *)
Inductive Message : Type :=
| InitiatingGet (filename host : string) (port : Z)
| InitiatingPut (filename host : string) (port : Z)
| FileDoesNotExist (filename : string)  (* "Error: File '...' does not exist." *)
| InvalidAck                            (* "Error: Invalid ACK received." *)
| TimeoutAck                            (* "Error: Timeout waiting for ACK." *)
| UploadSuccessful                      (* "Upload successful." *)
| InvalidData                           (* "Error: Invalid DATA packet received." *)
| TimeoutData                           (* "Error: Timeout waiting for data." *)
| DownloadSuccessful                    (* "Download successful." *)
| InvalidOperation.                     (* "Error: Invalid operation. Use 'get' or 'put'." *)

Inductive Event : Type :=
| Sendto (packet : list byte) (address : Address)  (* sock.sendto *)
| Recvd                                   (* sock.recvfrom returned a datagram *)
| TimedOut                                (* sock.recvfrom raised socket.timeout *)
| OpenRead                                (* open(filename, 'rb') *)
| OpenWrite                               (* open(filename, 'wb') *)
| Write (data : list byte)                (* file.write *)
| CloseFile                               (* leaving the [with] block *)
| Print (m : Message)
| CloseSock.                              (* sock.close() *)

(** How a call ends: it returns, or an exception leaves it uncaught. *)
Inductive Outcome : Type :=
| Returned
| Raised (e : Exn).

(** Effects performed before the rest of a computation. *)
Definition emit {A : Type} (evs : list Event) (r : list Event * A)
  : list Event * A :=
  (evs ++ fst r, snd r).

(** [file.read(n)] on the unread part of a file: the bytes read, and what
    is left. *)
Definition read (n : nat) (file : list byte) : list byte * list byte :=
  (firstn n file, skipn n file).

(** [send_ack(sock, block_number, server_address)] *)
Definition send_ack (block_number : Z) (server_address : Address)
  : Result Event :=
  ack_packet <- pack_HH (OPCODES ACK) block_number ;;
  Ok (Sendto ack_packet server_address).

(** The decoding step of both loops:
    [struct.unpack("!HH", response[:4])]. *)
Definition decode (response : list byte) : Result (Z * Z) :=
  unpack_HH (firstn 4 response).

(** *** Upload *)

(** The [while True] loop of [handle_put]; [file] is the unread part of the
    open file and [block_number] the counter on entry to the iteration. *)
Fixpoint put_loop (server_address : Address) (inbox : list Recv)
    (file : list byte) (block_number : Z) {struct inbox}
  : list Event * Outcome :=
  let block_number := block_number + 1 in
  let '(data, file) := read 512 file in
  match pack_HH (OPCODES DATA) block_number with
  | Raise e => ([], Raised e)
  | Ok header =>
      let packet := header ++ data in
      emit [Sendto packet server_address]
        match inbox with
        | [] | Silence :: _ => ([TimedOut; Print TimeoutAck], Returned)
        | Datagram d :: inbox =>
            let response := firstn BUFFER_SIZE d in
            emit [Recvd]
              match decode response with
              | Raise e => ([], Raised e)
              | Ok (opcode, ack_block) =>
                  if negb (opcode =? OPCODES ACK) || negb (ack_block =? block_number)
                  then ([Print InvalidAck], Returned)
                  else if (List.length data <? 512)%nat
                  then ([Print UploadSuccessful], Returned)
                  else put_loop server_address inbox file block_number
              end
        end
  end.

(** *** Download *)

(** The [while True] loop of [handle_get]; [file] is what has been written
    to the open file so far. *)
Fixpoint get_loop (server_address : Address) (inbox : list Recv)
    (file : list byte) (block_number : Z) {struct inbox}
  : list Event * (list byte * Outcome) :=
  match inbox with
  | [] | Silence :: _ => ([TimedOut; Print TimeoutData], (file, Returned))
  | Datagram d :: inbox =>
      let response := firstn BUFFER_SIZE d in
      emit [Recvd]
        match decode response with
        | Raise e => ([], (file, Raised e))
        | Ok (opcode, received_block) =>
            if negb (opcode =? OPCODES DATA)
               || negb (received_block =? block_number + 1)
            then ([Print InvalidData], (file, Returned))
            else
              let data := skipn 4 response in
              let file := file ++ data in
              let block_number := received_block in
              emit [Write data]
                match send_ack block_number server_address with
                | Raise e => ([], (file, Raised e))
                | Ok sent =>
                    emit [sent]
                      (if (List.length data <? 512)%nat
                       then ([Print DownloadSuccessful], (file, Returned))
                       else get_loop server_address inbox file block_number)
                end
        end
  end.

(** *** The two handlers and the driver *)

(** A finished call: its effects in program order, the local file named
    [filename] afterwards ([None] when there is none) and how the call
    ended. *)
Record Run : Type := mkRun {
  trace : list Event;
  disk : option (list byte);
  outcome : Outcome
}.

(** [handle_put(sock, filename, server_address)]; [local] is the content of
    the local file named [filename], [None] when [os.path.exists] is false. *)
Definition handle_put (filename : string) (server_address : Address)
    (local : option (list byte)) (inbox : list Recv) : Run :=
  match local with
  | None => mkRun [Print (FileDoesNotExist filename)] local Returned
  | Some content =>
      let '(tr, o) := put_loop server_address inbox content 0 in
      mkRun (OpenRead :: tr ++ [CloseFile]) local o
  end.

(** [handle_get(sock, filename, server_address)]: opening with ['wb']
    creates the local file or empties it. *)
Definition handle_get (filename : string) (server_address : Address)
    (local : option (list byte)) (inbox : list Recv) : Run :=
  let '(tr, (file, o)) := get_loop server_address inbox [] 0 in
  mkRun (OpenWrite :: tr ++ [CloseFile]) (Some file) o.

(** [sock.sendto(packet, address)] as [main] calls it: a port outside
    0..65535 raises [OverflowError] and nothing is sent.  The host is taken
    to name an address the socket can send to. *)
Definition sendto (packet : list byte) (address : Address) : Result Event :=
  if (0 <=? snd address) && (snd address <=? 65535)
  then Ok (Sendto packet address)
  else Raise OverflowError.

(** [open(filename, 'wb')], the first step of [handle_get], as far as the
    name alone decides it: the empty name raises [FileNotFoundError], a
    name with a NUL character raises [ValueError], and no file is created.
    Any other name is taken to be one the file system lets the program
    create. *)
Definition open_wb (filename : string) : Result Event :=
  if (filename =? "")%string then Raise FileNotFoundError
  else if existsb (fun c => (N_of_ascii c =? 0)%N) (list_ascii_of_string filename)
  then Raise ValueError
  else Ok OpenWrite.

(** [main()], from the creation of the socket on.  The four answers to the
    prompts are arguments: [port] is [None] when the answer was empty,
    [operation] is already stripped and lower-cased.  An exception raised
    by the first [sendto], or by the [open] that starts [handle_get],
    leaves the [try] block at once; [handle_get] and [handle_put] describe
    the handlers from there on.  [local] is the content of the local file
    named [filename], [None] when there is no such file (as for the empty
    name).  The [finally] clause closes the socket whether the [try] block
    returns or raises. *)
Definition main (host : string) (port : option Z) (operation filename : string)
    (local : option (list byte)) (inbox : list Recv) : Run :=
  let port := match port with Some p => p | None => 69 end in
  let server_address := (host, port) in
  if (operation =? "get")%string then
    match build_request (OPCODES RRQ) filename octet with
    | Raise e =>
        mkRun [Print (InitiatingGet filename host port); CloseSock] local (Raised e)
    | Ok request_packet =>
        match sendto request_packet server_address with
        | Raise e =>
            mkRun [Print (InitiatingGet filename host port); CloseSock]
                  local (Raised e)
        | Ok request_sent =>
            match open_wb filename with
            | Raise e =>
                mkRun [Print (InitiatingGet filename host port); request_sent;
                       CloseSock]
                      local (Raised e)
            | Ok _ =>
                let r := handle_get filename server_address local inbox in
                mkRun (Print (InitiatingGet filename host port)
                         :: request_sent
                         :: trace r ++ [CloseSock])
                      (disk r) (outcome r)
            end
        end
    end
  else if (operation =? "put")%string then
    match build_request (OPCODES WRQ) filename octet with
    | Raise e =>
        mkRun [Print (InitiatingPut filename host port); CloseSock] local (Raised e)
    | Ok request_packet =>
        match sendto request_packet server_address with
        | Raise e =>
            mkRun [Print (InitiatingPut filename host port); CloseSock]
                  local (Raised e)
        | Ok request_sent =>
            let r := handle_put filename server_address local inbox in
            mkRun (Print (InitiatingPut filename host port)
                     :: request_sent
                     :: trace r ++ [CloseSock])
                  (disk r) (outcome r)
        end
    end
  else mkRun [Print InvalidOperation; CloseSock] local Returned.

(** ** The wire format, for stating properties

    Packets as a peer would write them: big-endian 16-bit fields. *)

Definition u16 (n : Z) : list byte :=
  [byte_of_Z (n / 256); byte_of_Z (n mod 256)].

Definition data_packet (block : Z) (payload : list byte) : list byte :=
  u16 (OPCODES DATA) ++ u16 block ++ payload.

Definition ack_packet (block : Z) : list byte :=
  u16 (OPCODES ACK) ++ u16 block.

(** ** Scripts and traces, for stating properties *)

(** The datagrams handed to [sendto] during a run, in order. *)
Definition sent (tr : list Event) : list (list byte) :=
  flat_map (fun e => match e with Sendto p _ => [p] | _ => [] end) tr.

(** The chunks handed to [file.write] during a run, in order. *)
Definition written (tr : list Event) : list (list byte) :=
  flat_map (fun e => match e with Write d => [d] | _ => [] end) tr.

(** A server that acknowledges [n] consecutive blocks, from [first] on. *)
Fixpoint acks_from (first : Z) (n : nat) : list Recv :=
  match n with
  | O => []
  | S n => Datagram (ack_packet first) :: acks_from (first + 1) n
  end.

(** A server that sends the payloads as consecutive DATA blocks, numbered
    from [first] on. *)
Fixpoint datas_from (first : Z) (payloads : list (list byte)) : list Recv :=
  match payloads with
  | [] => []
  | p :: ps => Datagram (data_packet first p) :: datas_from (first + 1) ps
  end.

(** The effects of uploading the chunks as blocks [first], [first + 1], ...
    each acknowledged in turn. *)
Fixpoint up_rounds (a : Address) (first : Z) (chunks : list (list byte))
  : list Event :=
  match chunks with
  | [] => []
  | c :: cs => Sendto (data_packet first c) a :: Recvd :: up_rounds a (first + 1) cs
  end.

(** The effects of downloading the payloads as blocks [first],
    [first + 1], ... each written and acknowledged in turn. *)
Fixpoint down_rounds (a : Address) (first : Z) (payloads : list (list byte))
  : list Event :=
  match payloads with
  | [] => []
  | p :: ps =>
      Recvd :: Write p :: Sendto (ack_packet first) a
        :: down_rounds a (first + 1) ps
  end.

Definition full_block (p : list byte) : Prop := List.length p = 512%nat.

(** The (opcode, block) headers of a list of datagrams. *)
Definition headers (packets : list (list byte)) : list (Result (Z * Z)) :=
  map decode packets.

(** Headers with the given opcode and block numbers 1, 2, ..., [n]. *)
Definition numbered (opcode : Z) (first : Z) (n : nat) : list (Result (Z * Z)) :=
  map (fun i => Ok (opcode, first + Z.of_nat i)) (seq 0 n).

(** A local file of 65535 full blocks: 33 553 920 zero bytes. *)
Definition chunks_65535 : list (list byte) :=
  repeat (repeat x00 512) (Z.to_nat 65535).

(** An ERROR packet as a server writes it. *)
Definition error_packet (code_hi code_lo : byte) (message : list byte)
  : list byte :=
  u16 (OPCODES ERROR) ++ [code_hi; code_lo] ++ message ++ [x00].

(** What a download keeps of a datagram once it has accepted it:
    [response[4:]], [response] being at most [BUFFER_SIZE] bytes of it. *)
Definition received_payload (d : list byte) : list byte :=
  skipn 4 (firstn BUFFER_SIZE d).

(** Datagrams that a download accepts one after the other without ending:
    DATA packets numbered from [first] on, each with a full payload. *)
Fixpoint in_sequence (first : Z) (ds : list (list byte)) : Prop :=
  match ds with
  | [] => True
  | d :: ds =>
      decode d = Ok (OPCODES DATA, first)
      /\ full_block (received_payload d)
      /\ in_sequence (first + 1) ds
  end.

(** The next wait of a download that has accepted block [bn] fails: nothing
    arrives, or what arrives is not DATA block [bn + 1]. *)
Definition next_fails (bn : Z) (inbox : list Recv) : Prop :=
  match inbox with
  | [] | Silence :: _ => True
  | Datagram d :: _ =>
      match decode d with
      | Raise _ => True
      | Ok (opcode, block) => opcode <> OPCODES DATA \/ block <> bn + 1
      end
  end.

(** Nothing arrives at the next wait: it ends in [socket.timeout]. *)
Definition no_datagram (inbox : list Recv) : Prop :=
  match inbox with
  | [] | Silence :: _ => True
  | Datagram _ :: _ => False
  end.

(** What a run does after its first wait that timed out, if any. *)
Fixpoint after_timeout (tr : list Event) : option (list Event) :=
  match tr with
  | [] => None
  | TimedOut :: post => Some post
  | _ :: tr => after_timeout tr
  end.

(** How many times a run closes the socket. *)
Definition socket_closes (tr : list Event) : nat :=
  List.length (filter (fun e => match e with CloseSock => true | _ => false end) tr).

(** A file name or mode that a request can carry: ASCII characters only,
    none of them NUL. *)
Definition valid_field (s : string) : Prop :=
  Forall (fun c => (0 < N_of_ascii c < 128)%N) (list_ascii_of_string s).

(** The bytes up to the first NUL, and those after it. *)
Fixpoint until_nul (bs : list byte) : option (list byte * list byte) :=
  match bs with
  | [] => None
  | b :: bs =>
      if Byte.eqb b x00 then Some ([], bs)
      else match until_nul bs with
           | Some (field, rest) => Some (b :: field, rest)
           | None => None
           end
  end.

(** Modelled from the spec: the decoder of request packets.  The client has
    none (it only builds requests); this one reads the layout the spec
    gives for RRQ/WRQ, [opcode(2) filename(N) 0x00 mode(M) 0x00], and
    returns the three fields. *)
Definition decode_request (buffer : list byte) : option (Z * string * string) :=
  match buffer with
  | o1 :: o0 :: fields =>
      let opcode := Z.lor (Z.shiftl (Z_of_byte o1) 8) (Z_of_byte o0) in
      if (opcode =? OPCODES RRQ) || (opcode =? OPCODES WRQ) then
        match until_nul fields with
        | Some (filename, fields) =>
            match until_nul fields with
            | Some (mode, []) =>
                Some (opcode, string_of_list_byte filename, string_of_list_byte mode)
            | _ => None
            end
        | None => None
        end
      else None
  | _ => None
  end.

(** What a loop does once a wait has timed out: it prints [report] and
    returns; and it never closes the socket itself. *)
Definition stops_on_timeout (report : Message) (tr : list Event) (o : Outcome)
  : Prop :=
  socket_closes tr = 0%nat
  /\ forall post, after_timeout tr = Some post ->
                  post = [Print report] /\ o = Returned.

(** The payloads of DATA packets: what follows the 4-byte header. *)
Definition payloads (packets : list (list byte)) : list (list byte) :=
  map (skipn 4) packets.

(** The addresses a run sends datagrams to, in order. *)
Definition destinations (tr : list Event) : list Address :=
  flat_map (fun e => match e with Sendto _ addr => [addr] | _ => [] end) tr.

(** A wait whose datagram, if any, is cut to its first [n] bytes. *)
Definition first_bytes (n : nat) (r : Recv) : Recv :=
  match r with
  | Datagram d => Datagram (firstn n d)
  | Silence => Silence
  end.

(** ** Facts about bytes and [struct] *)

Section Bytes.

Lemma Z_of_byte_range (b : byte) : 0 <= Z_of_byte b < 256.
Proof.
  unfold Z_of_byte.
  pose proof (Byte.to_N_bounded b) as Hb.
  lia.
Qed.

Lemma Z_of_byte_of_Z (z : Z) : 0 <= z < 256 -> Z_of_byte (byte_of_Z z) = z.
Proof.
  intros Hz. unfold Z_of_byte, byte_of_Z.
  destruct (Byte.of_N (Z.to_N z)) as [b|] eqn:E.
  - apply Byte.to_of_N in E. rewrite E. lia.
  - apply Byte.of_N_None_iff in E. lia.
Qed.

Lemma byte_of_Z_of_byte (b : byte) : byte_of_Z (Z_of_byte b) = b.
Proof.
  unfold Z_of_byte, byte_of_Z.
  rewrite N2Z.id, Byte.of_to_N. reflexivity.
Qed.

Lemma lor_shiftl_8 (hi lo : Z) :
  0 <= lo < 256 -> Z.lor (Z.shiftl hi 8) lo = hi * 256 + lo.
Proof.
  intros Hlo.
  rewrite Z.shiftl_mul_pow2 by lia.
  change (2 ^ 8) with 256.
  rewrite <- Z.lxor_lor, <- Z.add_nocarry_lxor; try reflexivity.
  all: apply Z.bits_inj'; intros n Hn;
    rewrite Z.land_spec, Z.bits_0;
    destruct (Z.ltb_spec n 8) as [Hlt|Hge].
  all: try (change 256 with (2 ^ 8);
            rewrite Z.mul_pow2_bits_low by lia; reflexivity).
  all: rewrite <- (Z.mod_small lo (2 ^ 8)) by (change (2 ^ 8) with 256; lia);
    rewrite Z.mod_pow2_bits_high by lia; apply andb_false_r.
Qed.

Lemma pack_H_ok (n : Z) : 0 <= n <= 65535 -> pack_H n = Ok (u16 n).
Proof.
  intros Hn. unfold pack_H, u16.
  replace ((0 <=? n) && (n <=? 65535)) with true by lia.
  rewrite Z.shiftr_div_pow2 by lia.
  change 255 with (Z.ones 8). rewrite Z.land_ones by lia.
  reflexivity.
Qed.

Lemma pack_H_raise (n : Z) : ~ 0 <= n <= 65535 -> pack_H n = Raise struct_error.
Proof.
  intros Hn. unfold pack_H.
  replace ((0 <=? n) && (n <=? 65535)) with false by lia.
  reflexivity.
Qed.

Lemma pack_HH_ok (a b : Z) :
  0 <= a <= 65535 -> 0 <= b <= 65535 -> pack_HH a b = Ok (u16 a ++ u16 b).
Proof.
  intros Ha Hb. unfold pack_HH.
  rewrite (pack_H_ok a Ha), (pack_H_ok b Hb). reflexivity.
Qed.

Lemma pack_HH_raise (a b : Z) :
  0 <= a <= 65535 -> ~ 0 <= b <= 65535 -> pack_HH a b = Raise struct_error.
Proof.
  intros Ha Hb. unfold pack_HH.
  rewrite (pack_H_ok a Ha), (pack_H_raise b Hb). reflexivity.
Qed.

Lemma u16_value (n : Z) (hi lo : byte) :
  0 <= n <= 65535 -> u16 n = [hi; lo] ->
  Z.lor (Z.shiftl (Z_of_byte hi) 8) (Z_of_byte lo) = n.
Proof.
  intros Hn E. unfold u16 in E. injection E as <- <-.
  rewrite lor_shiftl_8 by apply Z_of_byte_range.
  rewrite !Z_of_byte_of_Z.
  - pose proof (Z.div_mod n 256). lia.
  - apply Z.mod_pos_bound. lia.
  - split; [apply Z.div_pos; lia | apply Z.div_lt_upper_bound; lia].
Qed.

Lemma unpack_HH_u16 (a b : Z) :
  0 <= a <= 65535 -> 0 <= b <= 65535 -> unpack_HH (u16 a ++ u16 b) = Ok (a, b).
Proof.
  intros Ha Hb. cbn [u16 app unpack_HH].
  rewrite (u16_value a _ _ Ha eq_refl), (u16_value b _ _ Hb eq_refl).
  reflexivity.
Qed.

Lemma unpack_HH_short (buf : list byte) :
  (List.length buf < 4)%nat -> unpack_HH buf = Raise struct_error.
Proof.
  intros H.
  destruct buf as [|a [|b [|c [|d [|e buf]]]]]; cbn in H; try lia; reflexivity.
Qed.

Lemma unpack_HH_full (buf : list byte) :
  (4 <= List.length buf)%nat ->
  exists a b, unpack_HH (firstn 4 buf) = Ok (a, b)
              /\ 0 <= a <= 65535 /\ 0 <= b <= 65535.
Proof.
  intros H.
  destruct buf as [|a1 [|a0 [|b1 [|b0 buf]]]]; cbn in H; try lia.
  cbn [firstn unpack_HH]. eexists _, _. split; [reflexivity|].
  rewrite !lor_shiftl_8 by apply Z_of_byte_range.
  pose proof (Z_of_byte_range a1). pose proof (Z_of_byte_range a0).
  pose proof (Z_of_byte_range b1). pose proof (Z_of_byte_range b0).
  lia.
Qed.

End Bytes.

(** ** One iteration of each loop *)

Section Steps.

Variable a : Address.

Lemma emit_emit {A : Type} (e1 e2 : list Event) (r : list Event * A) :
  emit e1 (emit e2 r) = emit (e1 ++ e2) r.
Proof. unfold emit. cbn. rewrite app_assoc. reflexivity. Qed.

Lemma emit_nil {A : Type} (r : list Event * A) : emit [] r = r.
Proof. destruct r. reflexivity. Qed.

Lemma decode_received (d : list byte) :
  decode (firstn BUFFER_SIZE d) = decode d.
Proof.
  unfold decode. rewrite firstn_firstn. reflexivity.
Qed.

Lemma decode_data_packet (block : Z) (p : list byte) :
  0 <= block <= 65535 -> decode (data_packet block p) = Ok (OPCODES DATA, block).
Proof.
  intros Hb. unfold decode, data_packet.
  change (firstn 4 (u16 (OPCODES DATA) ++ u16 block ++ p))
    with (u16 (OPCODES DATA) ++ u16 block).
  apply unpack_HH_u16; cbn; lia.
Qed.

Lemma decode_ack_packet (block : Z) :
  0 <= block <= 65535 -> decode (ack_packet block) = Ok (OPCODES ACK, block).
Proof.
  intros Hb. unfold decode, ack_packet.
  change (firstn 4 (u16 (OPCODES ACK) ++ u16 block))
    with (u16 (OPCODES ACK) ++ u16 block).
  apply unpack_HH_u16; cbn; lia.
Qed.

Lemma received_data_packet (block : Z) (p : list byte) :
  (List.length p <= 512)%nat ->
  firstn BUFFER_SIZE (data_packet block p) = data_packet block p.
Proof.
  intros Hp. apply firstn_all2. unfold data_packet, BUFFER_SIZE.
  rewrite !length_app. cbn. lia.
Qed.

(** *** Upload *)

Lemma put_loop_overflow (inbox : list Recv) (file : list byte) (bn : Z) :
  ~ 0 <= bn + 1 <= 65535 ->
  put_loop a inbox file bn = ([], Raised struct_error).
Proof.
  intros Hbn.
  destruct inbox; cbn [put_loop read];
    rewrite pack_HH_raise by (cbn; lia); reflexivity.
Qed.

Lemma put_loop_timeout (inbox : list Recv) (file : list byte) (bn : Z) :
  0 <= bn < 65535 ->
  match inbox with [] | Silence :: _ => True | _ => False end ->
  put_loop a inbox file bn =
    ([Sendto (data_packet (bn + 1) (firstn 512 file)) a; TimedOut; Print TimeoutAck],
     Returned).
Proof.
  intros Hbn Hin.
  destruct inbox as [|[d|] inbox]; try contradiction; cbn [put_loop read];
    rewrite pack_HH_ok by (cbn; lia); reflexivity.
Qed.

Lemma put_loop_reply (d : list byte) (inbox : list Recv) (file : list byte) (bn : Z) :
  0 <= bn < 65535 ->
  put_loop a (Datagram d :: inbox) file bn =
    emit [Sendto (data_packet (bn + 1) (firstn 512 file)) a; Recvd]
      match decode d with
      | Raise e => ([], Raised e)
      | Ok (opcode, ack_block) =>
          if negb (opcode =? OPCODES ACK) || negb (ack_block =? bn + 1)
          then ([Print InvalidAck], Returned)
          else if (List.length (firstn 512 file) <? 512)%nat
          then ([Print UploadSuccessful], Returned)
          else put_loop a inbox (skipn 512 file) (bn + 1)
      end.
Proof.
  intros Hbn. cbn [put_loop read].
  rewrite pack_HH_ok by (cbn; lia).
  rewrite decode_received, emit_emit. reflexivity.
Qed.

Lemma put_loop_acked (inbox : list Recv) (file : list byte) (bn : Z) :
  0 <= bn < 65535 ->
  put_loop a (Datagram (ack_packet (bn + 1)) :: inbox) file bn =
    emit [Sendto (data_packet (bn + 1) (firstn 512 file)) a; Recvd]
      (if (List.length (firstn 512 file) <? 512)%nat
       then ([Print UploadSuccessful], Returned)
       else put_loop a inbox (skipn 512 file) (bn + 1)).
Proof.
  intros Hbn. rewrite put_loop_reply by lia.
  rewrite decode_ack_packet by lia.
  rewrite !Z.eqb_refl. reflexivity.
Qed.

(** *** Download *)

Lemma get_loop_timeout (inbox : list Recv) (file : list byte) (bn : Z) :
  match inbox with [] | Silence :: _ => True | _ => False end ->
  get_loop a inbox file bn = ([TimedOut; Print TimeoutData], (file, Returned)).
Proof.
  destruct inbox as [|[d|] inbox]; try contradiction; reflexivity.
Qed.

Lemma get_loop_short (d : list byte) (inbox : list Recv) (file : list byte) (bn : Z) :
  (List.length d < 4)%nat ->
  get_loop a (Datagram d :: inbox) file bn = ([Recvd], (file, Raised struct_error)).
Proof.
  intros Hd. cbn [get_loop]. rewrite decode_received.
  unfold decode. rewrite unpack_HH_short; [reflexivity|].
  rewrite length_firstn. lia.
Qed.

Lemma get_loop_reject (d : list byte) (inbox : list Recv) (file : list byte)
    (bn opcode block : Z) :
  decode d = Ok (opcode, block) ->
  opcode <> OPCODES DATA \/ block <> bn + 1 ->
  get_loop a (Datagram d :: inbox) file bn =
    ([Recvd; Print InvalidData], (file, Returned)).
Proof.
  intros Hd Hbad. cbn [get_loop]. rewrite decode_received, Hd.
  replace (negb (opcode =? OPCODES DATA) || negb (block =? bn + 1)) with true
    by lia.
  reflexivity.
Qed.

Lemma get_loop_accept (p : list byte) (inbox : list Recv) (file : list byte) (bn : Z) :
  0 <= bn < 65535 -> (List.length p <= 512)%nat ->
  get_loop a (Datagram (data_packet (bn + 1) p) :: inbox) file bn =
    emit [Recvd; Write p; Sendto (ack_packet (bn + 1)) a]
      (if (List.length p <? 512)%nat
       then ([Print DownloadSuccessful], (file ++ p, Returned))
       else get_loop a inbox (file ++ p) (bn + 1)).
Proof.
  intros Hbn Hp. cbn [get_loop].
  rewrite received_data_packet by assumption.
  rewrite decode_data_packet by lia.
  rewrite !Z.eqb_refl. cbn [negb orb].
  unfold send_ack. rewrite pack_HH_ok by (cbn; lia).
  change (skipn 4 (data_packet (bn + 1) p)) with p.
  cbn [bind]. rewrite !emit_emit. reflexivity.
Qed.

End Steps.

(** ** Several iterations *)

Section Rounds.

Variable a : Address.

Lemma full_block_split (c l : list byte) :
  full_block c -> firstn 512 (c ++ l) = c /\ skipn 512 (c ++ l) = l.
Proof.
  unfold full_block. intros Hc.
  rewrite firstn_app, skipn_app, Hc, Nat.sub_diag.
  rewrite firstn_all2, skipn_all2 by (rewrite Hc; apply Nat.le_refl).
  rewrite firstn_O, skipn_O, app_nil_r.
  split; reflexivity.
Qed.

Lemma sent_app (t1 t2 : list Event) : sent (t1 ++ t2) = sent t1 ++ sent t2.
Proof. apply flat_map_app. Qed.

Lemma written_app (t1 t2 : list Event) :
  written (t1 ++ t2) = written t1 ++ written t2.
Proof. apply flat_map_app. Qed.

(** Full chunks, each acknowledged, are sent one after the other. *)
Lemma put_rounds (chunks : list (list byte)) :
  forall (tail : list byte) (inbox : list Recv) (bn : Z),
    Forall full_block chunks ->
    0 <= bn -> bn + Z.of_nat (List.length chunks) <= 65535 ->
    put_loop a (acks_from (bn + 1) (List.length chunks) ++ inbox)
             (List.concat chunks ++ tail) bn
    = emit (up_rounds a (bn + 1) chunks)
           (put_loop a inbox tail (bn + Z.of_nat (List.length chunks))).
Proof.
  induction chunks as [|c cs IH]; intros tail inbox bn Hfull Hbn Hmax.
  - cbn [List.length acks_from List.concat app up_rounds].
    rewrite emit_nil. change (Z.of_nat 0) with 0. rewrite Z.add_0_r. reflexivity.
  - inversion Hfull as [|? ? Hc Hcs]; subst.
    cbn [List.length] in Hmax.
    cbn [List.length acks_from List.concat app up_rounds].
    rewrite <- app_assoc.
    destruct (full_block_split c (List.concat cs ++ tail) Hc) as [Hf Hs].
    rewrite put_loop_acked by lia. rewrite Hf, Hs, Hc.
    change (512 <? 512)%nat with false. cbv iota.
    rewrite IH by (try assumption; lia).
    rewrite emit_emit.
    replace (bn + 1 + Z.of_nat (List.length cs))
      with (bn + Z.of_nat (S (List.length cs))) by lia.
    reflexivity.
Qed.

(** Full payloads arriving in sequence are written and acknowledged one
    after the other. *)
Lemma get_rounds (payloads : list (list byte)) :
  forall (inbox : list Recv) (file : list byte) (bn : Z),
    Forall full_block payloads ->
    0 <= bn -> bn + Z.of_nat (List.length payloads) <= 65535 ->
    get_loop a (datas_from (bn + 1) payloads ++ inbox) file bn
    = emit (down_rounds a (bn + 1) payloads)
           (get_loop a inbox (file ++ List.concat payloads)
                     (bn + Z.of_nat (List.length payloads))).
Proof.
  induction payloads as [|p ps IH]; intros inbox file bn Hfull Hbn Hmax.
  - cbn [List.length datas_from List.concat app down_rounds].
    rewrite emit_nil, app_nil_r.
    change (Z.of_nat 0) with 0. rewrite Z.add_0_r. reflexivity.
  - inversion Hfull as [|? ? Hp Hps]; subst.
    cbn [List.length] in Hmax.
    cbn [List.length datas_from List.concat app down_rounds].
    rewrite get_loop_accept by (unfold full_block in Hp; lia).
    rewrite Hp. change (512 <? 512)%nat with false. cbv iota.
    rewrite IH by (try assumption; lia).
    rewrite emit_emit, <- app_assoc.
    replace (bn + 1 + Z.of_nat (List.length ps))
      with (bn + Z.of_nat (S (List.length ps))) by lia.
    reflexivity.
Qed.

Lemma up_rounds_app (cs cs' : list (list byte)) :
  forall first,
    up_rounds a first (cs ++ cs')
    = up_rounds a first cs ++ up_rounds a (first + Z.of_nat (List.length cs)) cs'.
Proof.
  induction cs as [|c cs IH]; intros first; cbn [app up_rounds List.length].
  - change (Z.of_nat 0) with 0. rewrite Z.add_0_r. reflexivity.
  - rewrite IH.
    replace (first + 1 + Z.of_nat (List.length cs))
      with (first + Z.of_nat (S (List.length cs))) by lia.
    reflexivity.
Qed.

Lemma down_rounds_app (ps ps' : list (list byte)) :
  forall first,
    down_rounds a first (ps ++ ps')
    = down_rounds a first ps
        ++ down_rounds a (first + Z.of_nat (List.length ps)) ps'.
Proof.
  induction ps as [|p ps IH]; intros first; cbn [app down_rounds List.length].
  - change (Z.of_nat 0) with 0. rewrite Z.add_0_r. reflexivity.
  - rewrite IH.
    replace (first + 1 + Z.of_nat (List.length ps))
      with (first + Z.of_nat (S (List.length ps))) by lia.
    reflexivity.
Qed.

Lemma acks_from_app (n m : nat) :
  forall first,
    acks_from first (n + m)
    = acks_from first n ++ acks_from (first + Z.of_nat n) m.
Proof.
  induction n as [|n IH]; intros first; cbn [Nat.add acks_from app].
  - change (Z.of_nat 0) with 0. rewrite Z.add_0_r. reflexivity.
  - rewrite IH.
    replace (first + 1 + Z.of_nat n) with (first + Z.of_nat (S n)) by lia.
    reflexivity.
Qed.

Lemma datas_from_app (ps ps' : list (list byte)) :
  forall first,
    datas_from first (ps ++ ps')
    = datas_from first ps ++ datas_from (first + Z.of_nat (List.length ps)) ps'.
Proof.
  induction ps as [|p ps IH]; intros first; cbn [app datas_from List.length].
  - change (Z.of_nat 0) with 0. rewrite Z.add_0_r. reflexivity.
  - rewrite IH.
    replace (first + 1 + Z.of_nat (List.length ps))
      with (first + Z.of_nat (S (List.length ps))) by lia.
    reflexivity.
Qed.

End Rounds.

(** ** Block numbers on the wire *)

Section Blocks.

Variable a : Address.

Lemma decode_cases (d : list byte) :
  ((List.length d < 4)%nat /\ decode d = Raise struct_error)
  \/ ((4 <= List.length d)%nat
      /\ exists opcode block,
          decode d = Ok (opcode, block)
          /\ 0 <= opcode <= 65535 /\ 0 <= block <= 65535).
Proof.
  destruct (Nat.lt_ge_cases (List.length d) 4) as [Hlt|Hge].
  - left. split; [assumption|].
    unfold decode. apply unpack_HH_short. rewrite length_firstn. lia.
  - right. split; [assumption|].
    destruct (unpack_HH_full d Hge) as (op & blk & E & Hop & Hblk).
    exists op, blk. auto.
Qed.

Lemma get_loop_accept_any (d : list byte) (inbox : list Recv)
    (file : list byte) (bn : Z) :
  0 <= bn < 65535 ->
  decode d = Ok (OPCODES DATA, bn + 1) ->
  get_loop a (Datagram d :: inbox) file bn =
    emit [Recvd; Write (skipn 4 (firstn BUFFER_SIZE d));
          Sendto (ack_packet (bn + 1)) a]
      (if (List.length (skipn 4 (firstn BUFFER_SIZE d)) <? 512)%nat
       then ([Print DownloadSuccessful],
             (file ++ skipn 4 (firstn BUFFER_SIZE d), Returned))
       else get_loop a inbox (file ++ skipn 4 (firstn BUFFER_SIZE d)) (bn + 1)).
Proof.
  intros Hbn Hd. cbn [get_loop]. rewrite decode_received, Hd.
  rewrite !Z.eqb_refl. cbn [negb orb].
  unfold send_ack. rewrite pack_HH_ok by (cbn; lia).
  cbn [bind]. rewrite !emit_emit. reflexivity.
Qed.

Lemma numbered_S (opcode first : Z) (n : nat) :
  numbered opcode first (S n) = Ok (opcode, first) :: numbered opcode (first + 1) n.
Proof.
  unfold numbered. cbn [seq map].
  change (Z.of_nat 0) with 0. rewrite Z.add_0_r. f_equal.
  rewrite <- seq_shift, map_map. apply map_ext. intros i. do 2 f_equal. lia.
Qed.

Lemma sent_emit {A : Type} (evs : list Event) (r : list Event * A) :
  sent (fst (emit evs r)) = sent evs ++ sent (fst r).
Proof. unfold emit. cbn [fst]. apply sent_app. Qed.

(** The DATA packets of an upload carry the blocks that follow the
    counter's value on entry, one by one, and none beyond 65535. *)
Lemma put_loop_headers (inbox : list Recv) :
  forall (file : list byte) (bn : Z),
    0 <= bn <= 65535 ->
    exists n : nat,
      bn + Z.of_nat n <= 65535
      /\ headers (sent (fst (put_loop a inbox file bn)))
         = numbered (OPCODES DATA) (bn + 1) n.
Proof.
  assert (Hone : forall file bn, 0 <= bn < 65535 ->
            headers (sent [Sendto (data_packet (bn + 1) (firstn 512 file)) a])
            = numbered (OPCODES DATA) (bn + 1) 1).
  { intros file bn Hbn. cbn [sent flat_map app headers map].
    rewrite decode_data_packet by lia. rewrite numbered_S. reflexivity. }
  induction inbox as [|r inbox IH]; intros file bn Hbn;
    destruct (Z.eq_dec bn 65535) as [Hlast|Hmore].
  - exists 0%nat. rewrite put_loop_overflow by lia. split; [lia | reflexivity].
  - exists 1%nat. rewrite put_loop_timeout by (exact I || lia).
    split; [lia|]. apply (Hone file bn). lia.
  - exists 0%nat. rewrite put_loop_overflow by lia. split; [lia | reflexivity].
  - destruct r as [d|].
    2:{ exists 1%nat. rewrite put_loop_timeout by (exact I || lia).
        split; [lia|]. apply (Hone file bn). lia. }
    rewrite put_loop_reply by lia.
    destruct (decode d) as [[opcode ack_block]|e].
    2:{ exists 1%nat. split; [lia|]. apply (Hone file bn). lia. }
    destruct (negb (opcode =? OPCODES ACK) || negb (ack_block =? bn + 1)).
    { exists 1%nat. split; [lia|]. apply (Hone file bn). lia. }
    destruct (List.length (firstn 512 file) <? 512)%nat.
    { exists 1%nat. split; [lia|]. apply (Hone file bn). lia. }
    destruct (IH (skipn 512 file) (bn + 1)) as (n & Hn & Hh); [lia|].
    exists (S n). split; [lia|].
    rewrite sent_emit. unfold headers in *. rewrite map_app, Hh.
    rewrite numbered_S.
    cbn [sent flat_map app map]. rewrite decode_data_packet by lia.
    reflexivity.
Qed.

(** The ACK packets of a download carry the blocks that follow the
    counter's value on entry, one by one, and none beyond 65535. *)
Lemma get_loop_headers (inbox : list Recv) :
  forall (file : list byte) (bn : Z),
    0 <= bn <= 65535 ->
    exists n : nat,
      bn + Z.of_nat n <= 65535
      /\ headers (sent (fst (get_loop a inbox file bn)))
         = numbered (OPCODES ACK) (bn + 1) n.
Proof.
  induction inbox as [|r inbox IH]; intros file bn Hbn.
  - exists 0%nat. split; [lia | reflexivity].
  - destruct r as [d|]; [|exists 0%nat; split; [lia | reflexivity]].
    destruct (decode_cases d) as [[Hlen Hd]|(Hlen & opcode & block & Hd & Hop & Hblk)].
    + exists 0%nat. rewrite get_loop_short by assumption.
      split; [lia | reflexivity].
    + destruct (Z.eq_dec opcode (OPCODES DATA)) as [->|Hopc];
        [destruct (Z.eq_dec block (bn + 1)) as [->|Hblock]|].
      * rewrite get_loop_accept_any by (assumption || lia).
        assert (Hack : headers (sent [Recvd; Write (skipn 4 (firstn BUFFER_SIZE d));
                                     Sendto (ack_packet (bn + 1)) a])
                       = [Ok (OPCODES ACK, bn + 1)]).
        { cbn [sent flat_map app headers map].
          rewrite decode_ack_packet by lia. reflexivity. }
        destruct (List.length (skipn 4 (firstn BUFFER_SIZE d)) <? 512)%nat.
        -- exists 1%nat. split; [lia|].
           rewrite sent_emit. unfold headers in *. rewrite map_app, Hack.
           rewrite numbered_S. reflexivity.
        -- destruct (IH (file ++ skipn 4 (firstn BUFFER_SIZE d)) (bn + 1))
             as (n & Hn & Hh); [lia|].
           exists (S n). split; [lia|].
           rewrite sent_emit. unfold headers in *. rewrite map_app, Hack, Hh.
           rewrite numbered_S. reflexivity.
      * exists 0%nat. rewrite (get_loop_reject a d inbox file bn _ _ Hd) by auto.
        split; [lia | reflexivity].
      * exists 0%nat. rewrite (get_loop_reject a d inbox file bn _ _ Hd) by auto.
        split; [lia | reflexivity].
Qed.

Lemma sent_file_session (tr : list Event) (opening : Event) :
  sent [opening] = [] -> sent (opening :: tr ++ [CloseFile]) = sent tr.
Proof.
  intros Ho. change (opening :: tr ++ [CloseFile]) with ([opening] ++ tr ++ [CloseFile]).
  rewrite !sent_app, Ho. cbn [sent flat_map app]. apply app_nil_r.
Qed.

End Blocks.

(** C1 (as amended).  The block counter is a plain integer that grows by
    one per block and is never reduced modulo 65536: in every upload the
    DATA packets sent carry, in order, exactly the block numbers 1, 2, ..., n
    and in every download the ACK packets sent carry exactly 1, 2, ..., n,
    for some n of at most 65535.  Each block field is the counter's value
    itself; no packet with a wrapped block number is ever sent. *)
Theorem block_numbers_count_up_without_wrapping :
  forall (filename : string) (a : Address) (local : option (list byte))
         (inbox : list Recv),
    (exists n : nat,
        Z.of_nat n <= 65535
        /\ headers (sent (trace (handle_put filename a local inbox)))
           = numbered (OPCODES DATA) 1 n)
    /\ (exists n : nat,
           Z.of_nat n <= 65535
           /\ headers (sent (trace (handle_get filename a local inbox)))
              = numbered (OPCODES ACK) 1 n).
Proof.
  intros filename a local inbox. split.
  - unfold handle_put. destruct local as [content|].
    + destruct (put_loop_headers a inbox content 0) as (n & Hn & Hh); [lia|].
      destruct (put_loop a inbox content 0) as [tr o]. cbn [fst] in Hh.
      exists n. split; [lia|]. cbn [trace].
      rewrite sent_file_session by reflexivity. exact Hh.
    + exists 0%nat. split; [lia | reflexivity].
  - unfold handle_get.
    destruct (get_loop_headers a inbox [] 0) as (n & Hn & Hh); [lia|].
    destruct (get_loop a inbox [] 0) as [tr [file o]]. cbn [fst] in Hh.
    exists n. split; [lia|]. cbn [trace].
    rewrite sent_file_session by reflexivity. exact Hh.
Qed.

(** ** Complete transfers *)

Section Transfers.

Variable a : Address.

Lemma put_last (last : list byte) (inbox : list Recv) (bn : Z) :
  0 <= bn < 65535 -> (List.length last < 512)%nat ->
  put_loop a (Datagram (ack_packet (bn + 1)) :: inbox) last bn =
    ([Sendto (data_packet (bn + 1) last) a; Recvd; Print UploadSuccessful],
     Returned).
Proof.
  intros Hbn Hlast. rewrite put_loop_acked by lia.
  rewrite firstn_all2 by lia.
  apply Nat.ltb_lt in Hlast. rewrite Hlast. reflexivity.
Qed.

Lemma get_last (last : list byte) (inbox : list Recv) (file : list byte) (bn : Z) :
  0 <= bn < 65535 -> (List.length last < 512)%nat ->
  get_loop a (Datagram (data_packet (bn + 1) last) :: inbox) file bn =
    ([Recvd; Write last; Sendto (ack_packet (bn + 1)) a; Print DownloadSuccessful],
     (file ++ last, Returned)).
Proof.
  intros Hbn Hlast. rewrite get_loop_accept by lia.
  apply Nat.ltb_lt in Hlast. rewrite Hlast. reflexivity.
Qed.

(** A file of full chunks and a short last one, every block acknowledged,
    is uploaded whole. *)
Lemma put_success (chunks : list (list byte)) (last : list byte)
    (inbox : list Recv) (bn : Z) :
  Forall full_block chunks -> (List.length last < 512)%nat ->
  0 <= bn -> bn + Z.of_nat (List.length chunks) < 65535 ->
  put_loop a (acks_from (bn + 1) (S (List.length chunks)) ++ inbox)
           (List.concat chunks ++ last) bn
  = (up_rounds a (bn + 1) (chunks ++ [last]) ++ [Print UploadSuccessful],
     Returned).
Proof.
  intros Hfull Hlast Hbn Hmax.
  replace (S (List.length chunks)) with (List.length chunks + 1)%nat by lia.
  rewrite acks_from_app, <- app_assoc.
  rewrite put_rounds by (assumption || lia).
  cbn [acks_from app].
  replace (bn + 1 + Z.of_nat (List.length chunks))
    with (bn + Z.of_nat (List.length chunks) + 1) by lia.
  rewrite put_last by lia.
  rewrite up_rounds_app. cbn [up_rounds].
  replace (bn + 1 + Z.of_nat (List.length chunks))
    with (bn + Z.of_nat (List.length chunks) + 1) by lia.
  unfold emit. cbn [fst snd]. rewrite <- app_assoc. reflexivity.
Qed.

(** Full payloads and a short last one, arriving in sequence, are
    downloaded whole. *)
Lemma get_success (payloads : list (list byte)) (last : list byte)
    (inbox : list Recv) (file : list byte) (bn : Z) :
  Forall full_block payloads -> (List.length last < 512)%nat ->
  0 <= bn -> bn + Z.of_nat (List.length payloads) < 65535 ->
  get_loop a (datas_from (bn + 1) (payloads ++ [last]) ++ inbox) file bn
  = (down_rounds a (bn + 1) (payloads ++ [last]) ++ [Print DownloadSuccessful],
     (file ++ List.concat payloads ++ last, Returned)).
Proof.
  intros Hfull Hlast Hbn Hmax.
  rewrite datas_from_app, <- app_assoc.
  rewrite get_rounds by (assumption || lia).
  cbn [datas_from app].
  replace (bn + 1 + Z.of_nat (List.length payloads))
    with (bn + Z.of_nat (List.length payloads) + 1) by lia.
  rewrite get_last by lia.
  rewrite down_rounds_app. cbn [down_rounds].
  replace (bn + 1 + Z.of_nat (List.length payloads))
    with (bn + Z.of_nat (List.length payloads) + 1) by lia.
  unfold emit. cbn [fst snd]. rewrite <- !app_assoc. reflexivity.
Qed.

Lemma chunks_65535_full : Forall full_block chunks_65535.
Proof.
  apply Forall_forall. intros c Hc. apply repeat_spec in Hc. subst c.
  apply repeat_length.
Qed.

Lemma chunks_65535_length : Z.of_nat (List.length chunks_65535) = 65535.
Proof.
  unfold chunks_65535. rewrite repeat_length. apply Z2Nat.id. lia.
Qed.

Lemma sent_up_rounds_full (chunks : list (list byte)) :
  forall first,
    Forall full_block chunks ->
    Forall (fun p => List.length p = 516%nat) (sent (up_rounds a first chunks)).
Proof.
  induction chunks as [|c cs IH]; intros first Hfull; cbn [up_rounds].
  - constructor.
  - inversion Hfull as [|? ? Hc Hcs]; subst.
    change (sent (Sendto (data_packet first c) a :: Recvd :: up_rounds a (first + 1) cs))
      with (data_packet first c :: sent (up_rounds a (first + 1) cs)).
    constructor; [|apply IH; assumption].
    unfold data_packet. rewrite !length_app. unfold full_block in Hc.
    rewrite Hc. reflexivity.
Qed.

(** Uploading 65535 full blocks to a server that acknowledges each of
    them: the 65536th [struct.pack] raises. *)
Lemma upload_of_65535_blocks (filename : string) (inbox : list Recv) :
  handle_put filename a (Some (List.concat chunks_65535))
             (acks_from 1 (List.length chunks_65535) ++ inbox)
  = mkRun (OpenRead :: up_rounds a 1 chunks_65535 ++ [CloseFile])
          (Some (List.concat chunks_65535)) (Raised struct_error).
Proof.
  unfold handle_put.
  pose proof (put_rounds a chunks_65535 [] inbox 0 chunks_65535_full) as H.
  rewrite chunks_65535_length, app_nil_r in H.
  rewrite !Z.add_0_l in H.
  rewrite H by lia.
  rewrite put_loop_overflow by lia.
  unfold emit. cbn [fst snd]. rewrite app_nil_r. reflexivity.
Qed.

End Transfers.

Lemma chunks_65535_count : List.length chunks_65535 = Z.to_nat 65535.
Proof. apply repeat_length. Qed.

(** C1, the claim as written fails.  A 33 553 920-byte file is uploaded to
    a server that acknowledges blocks 1 to 65535 and stands ready to
    acknowledge a wrapped block 0.  After block 65535 the counter is 65536,
    not 0: packing it raises [struct.error], no further DATA packet is
    sent and the exception leaves [handle_put]. *)
Lemma upload_past_block_65535_raises :
  let a : Address := ("server"%string, 69) in
  let r := handle_put "big.bin" a (Some (List.concat chunks_65535))
             (acks_from 1 (Z.to_nat 65535) ++ [Datagram (ack_packet 0)]) in
  trace r = OpenRead :: up_rounds a 1 chunks_65535 ++ [CloseFile]
  /\ outcome r = Raised struct_error.
Proof.
  cbv zeta. rewrite <- chunks_65535_count, upload_of_65535_blocks.
  split; reflexivity.
Qed.

(** C4, the claim as written fails for the same file, whose size is an
    exact multiple of 512: every DATA packet sent carries a full 512-byte
    payload, and the run ends in [struct.error] instead of sending the
    empty terminating block. *)
Lemma upload_of_65535_blocks_sends_no_empty_block :
  let a : Address := ("server"%string, 69) in
  let r := handle_put "big.bin" a (Some (List.concat chunks_65535))
             (acks_from 1 (Z.to_nat 65535) ++ [Datagram (ack_packet 0)]) in
  Forall (fun packet => List.length packet = 516%nat) (sent (trace r))
  /\ outcome r = Raised struct_error.
Proof.
  cbv zeta. rewrite <- chunks_65535_count, upload_of_65535_blocks.
  cbn [trace outcome]. split; [|reflexivity].
  rewrite sent_file_session by reflexivity.
  apply sent_up_rounds_full, chunks_65535_full.
Qed.

(** C4 (as amended).  A file made of fewer than 65535 full 512-byte blocks
    (its size is an exact multiple of 512), every block of which the server
    acknowledges, is uploaded as those blocks followed by one more DATA
    packet with a 0-byte payload, after which the upload is reported
    successful.  On download, after fewer than 65535 full blocks, the
    in-sequence DATA packet with a 0-byte payload is written, acknowledged
    and ends the download successfully. *)
Theorem zero_length_final_block :
  forall (filename : string) (a : Address) (blocks : list (list byte))
         (local : option (list byte)) (inbox : list Recv),
    Forall full_block blocks ->
    Z.of_nat (List.length blocks) < 65535 ->
    handle_put filename a (Some (List.concat blocks))
               (acks_from 1 (S (List.length blocks)) ++ inbox)
    = mkRun (OpenRead :: (up_rounds a 1 (blocks ++ [[]]) ++ [Print UploadSuccessful])
               ++ [CloseFile])
            (Some (List.concat blocks)) Returned
    /\ handle_get filename a local (datas_from 1 (blocks ++ [[]]) ++ inbox)
       = mkRun (OpenWrite
                  :: (down_rounds a 1 (blocks ++ [[]]) ++ [Print DownloadSuccessful])
                  ++ [CloseFile])
               (Some (List.concat blocks)) Returned.
Proof.
  intros filename a blocks local inbox Hfull Hmax. split.
  - unfold handle_put.
    pose proof (put_success a blocks [] inbox 0 Hfull) as H.
    rewrite app_nil_r in H. change (0 + 1) with 1 in H.
    rewrite H by (cbn; lia). reflexivity.
  - unfold handle_get.
    pose proof (get_success a blocks [] inbox [] 0 Hfull) as H.
    rewrite app_nil_r in H. change (0 + 1) with 1 in H.
    rewrite H by (cbn; lia). reflexivity.
Qed.

Lemma zero_length_final_block_witness :
  Forall full_block [repeat x00 512]
  /\ sent (trace (handle_put "f" ("h"%string, 69) (Some (repeat x00 512 ++ []))
                             (acks_from 1 2 ++ [])))
     = [data_packet 1 (repeat x00 512); data_packet 2 []].
Proof.
  assert (Hfull : Forall full_block [repeat x00 512])
    by (repeat constructor).
  split; [exact Hfull|].
  destruct (zero_length_final_block "f" ("h"%string, 69) [repeat x00 512] None []
              Hfull) as [Hput _].
  - cbn. lia.
  - cbn [List.concat List.length] in Hput. rewrite Hput. reflexivity.
Defined.


(** ** Downloads *)

Section Downloads.

Variable a : Address.

Lemma decode_range (d : list byte) (opcode block : Z) :
  decode d = Ok (opcode, block) -> 0 <= opcode <= 65535 /\ 0 <= block <= 65535.
Proof.
  intros Hd.
  destruct (decode_cases d) as [[_ E]|(_ & o & b & E & Ho & Hb)];
    rewrite E in Hd; [discriminate|].
  injection Hd as <- <-. auto.
Qed.

(** Whatever their size on the wire, datagrams accepted in sequence are
    written and acknowledged one after the other. *)
Lemma get_rounds_any (ds : list (list byte)) :
  forall (inbox : list Recv) (file : list byte) (bn : Z),
    0 <= bn -> in_sequence (bn + 1) ds ->
    get_loop a (map Datagram ds ++ inbox) file bn
    = emit (down_rounds a (bn + 1) (map received_payload ds))
           (get_loop a inbox (file ++ List.concat (map received_payload ds))
                     (bn + Z.of_nat (List.length ds))).
Proof.
  induction ds as [|d ds IH]; intros inbox file bn Hbn Hseq.
  - cbn [List.length map List.concat app down_rounds].
    rewrite emit_nil, app_nil_r.
    change (Z.of_nat 0) with 0. rewrite Z.add_0_r. reflexivity.
  - destruct Hseq as (Hd & Hfull & Hrest).
    pose proof (decode_range d _ _ Hd) as [_ Hblock].
    cbn [List.length map List.concat app down_rounds].
    rewrite get_loop_accept_any by (assumption || lia).
    fold (received_payload d). unfold full_block in Hfull. rewrite Hfull.
    change (512 <? 512)%nat with false. cbv iota.
    rewrite IH by (assumption || lia).
    rewrite emit_emit, <- app_assoc.
    replace (bn + 1 + Z.of_nat (List.length ds))
      with (bn + Z.of_nat (S (List.length ds))) by lia.
    reflexivity.
Qed.

(** A wait that fails leaves the file as it is. *)
Lemma get_loop_failure (inbox : list Recv) (file : list byte) (bn : Z) :
  next_fails bn inbox ->
  exists failure o,
    get_loop a inbox file bn = (failure, (file, o))
    /\ In (failure, o)
          [([TimedOut; Print TimeoutData], Returned);
           ([Recvd; Print InvalidData], Returned);
           ([Recvd], Raised struct_error)].
Proof.
  intros Hfail. destruct inbox as [|[d|] inbox].
  - eexists _, _. split; [reflexivity|]. cbn. auto.
  - cbn [next_fails] in Hfail.
    destruct (decode_cases d) as [[Hlen E]|(_ & opcode & block & E & _ & _)].
    + eexists _, _. split; [apply get_loop_short; assumption|]. cbn. auto.
    + rewrite E in Hfail.
      eexists _, _. split; [apply (get_loop_reject a d inbox file bn _ _ E Hfail)|].
      cbn. auto.
  - eexists _, _. split; [reflexivity|]. cbn. auto.
Qed.

End Downloads.

(** C5.  When the server answers a download with DATA blocks 1, 2 and 3 of
    512 bytes each and then block 4 of 200 bytes, the download takes exactly
    four waits, writes each payload once and in block order, acknowledges
    each block with its own number right after writing it, reports success
    after the fourth acknowledgement and leaves in the local file the four
    payloads concatenated. *)
Theorem download_of_four_blocks :
  forall (filename : string) (a : Address) (local : option (list byte))
         (p1 p2 p3 p4 : list byte) (inbox : list Recv),
    List.length p1 = 512%nat -> List.length p2 = 512%nat ->
    List.length p3 = 512%nat -> List.length p4 = 200%nat ->
    handle_get filename a local
      (Datagram (data_packet 1 p1) :: Datagram (data_packet 2 p2)
         :: Datagram (data_packet 3 p3) :: Datagram (data_packet 4 p4) :: inbox)
    = mkRun [OpenWrite;
             Recvd; Write p1; Sendto (ack_packet 1) a;
             Recvd; Write p2; Sendto (ack_packet 2) a;
             Recvd; Write p3; Sendto (ack_packet 3) a;
             Recvd; Write p4; Sendto (ack_packet 4) a;
             Print DownloadSuccessful; CloseFile]
            (Some (p1 ++ p2 ++ p3 ++ p4)) Returned.
Proof.
  intros filename a local p1 p2 p3 p4 inbox H1 H2 H3 H4.
  unfold handle_get.
  pose proof (get_success a [p1; p2; p3] p4 inbox [] 0) as H.
  cbn [datas_from down_rounds app List.concat List.length] in H.
  change (0 + 1) with 1 in H. change (1 + 1) with 2 in H.
  change (2 + 1) with 3 in H. change (3 + 1) with 4 in H.
  rewrite H.
  - rewrite app_nil_r, <- !app_assoc. reflexivity.
  - repeat constructor; assumption.
  - rewrite H4. apply Nat.ltb_lt. reflexivity.
  - lia.
  - cbn. lia.
Qed.

Lemma download_of_four_blocks_witness :
  let z := repeat x00 512 in
  let l := repeat xff 200 in
  disk (handle_get "f" ("h"%string, 69) None
          [Datagram (data_packet 1 z); Datagram (data_packet 2 z);
           Datagram (data_packet 3 z); Datagram (data_packet 4 l)])
  = Some (z ++ z ++ z ++ l).
Proof.
  cbv zeta.
  rewrite (download_of_four_blocks "f" ("h"%string, 69) None
             (repeat x00 512) (repeat x00 512) (repeat x00 512) (repeat xff 200) []
             eq_refl eq_refl eq_refl eq_refl).
  reflexivity.
Defined.

(** C9.  A download opens (creates or empties) the local file before its
    first wait on the socket and writes every accepted payload when it
    accepts it.  So whenever the server's first k datagrams are accepted
    and the next wait fails (nothing arrives, or what arrives is not the
    next DATA block), the run consists of opening the file, the k rounds of
    receive, write and acknowledge, the failing wait, in which nothing is
    written, and closing the file; the local file then holds exactly the k
    payloads concatenated, whatever it held before. *)
Theorem failed_download_keeps_written_blocks :
  forall (filename : string) (a : Address) (local : option (list byte))
         (ds : list (list byte)) (inbox : list Recv),
    in_sequence 1 ds ->
    next_fails (Z.of_nat (List.length ds)) inbox ->
    let r := handle_get filename a local (map Datagram ds ++ inbox) in
    exists failure,
      trace r = OpenWrite
                  :: (down_rounds a 1 (map received_payload ds) ++ failure)
                  ++ [CloseFile]
      /\ In (failure, outcome r)
            [([TimedOut; Print TimeoutData], Returned);
             ([Recvd; Print InvalidData], Returned);
             ([Recvd], Raised struct_error)]
      /\ disk r = Some (List.concat (map received_payload ds)).
Proof.
  intros filename a local ds inbox Hseq Hfail. cbv zeta.
  unfold handle_get.
  pose proof (get_rounds_any a ds inbox [] 0) as H.
  change (0 + 1) with 1 in H. rewrite H by (assumption || lia). clear H.
  rewrite Z.add_0_l.
  destruct (get_loop_failure a inbox ([] ++ List.concat (map received_payload ds))
              _ Hfail) as (failure & o & E & Hin).
  rewrite E. unfold emit. cbn [fst snd trace disk outcome app].
  exists failure. auto.
Qed.

Lemma failed_download_keeps_written_blocks_witness :
  disk (handle_get "f" ("h"%string, 69) (Some [x01; x02])
          (map Datagram [data_packet 1 (repeat x07 512)]
             ++ [Datagram (ack_packet 2)]))
  = Some (repeat x07 512).
Proof.
  destruct (failed_download_keeps_written_blocks "f" ("h"%string, 69)
              (Some [x01; x02]) [data_packet 1 (repeat x07 512)]
              [Datagram (ack_packet 2)])
    as (failure & _ & _ & Hdisk).
  - repeat split.
  - cbn. left. discriminate.
  - rewrite Hdisk. reflexivity.
Defined.

(** ** Packets that are not the expected one *)

Section Unexpected.

Variable a : Address.

Lemma u16_of_bytes (hi lo : byte) :
  u16 (Z.lor (Z.shiftl (Z_of_byte hi) 8) (Z_of_byte lo)) = [hi; lo].
Proof.
  pose proof (Z_of_byte_range hi) as Hhi.
  pose proof (Z_of_byte_range lo) as Hlo.
  rewrite lor_shiftl_8 by assumption. unfold u16.
  rewrite Z.div_add_l, Z.div_small, Z.add_0_r by lia.
  rewrite Z.add_comm, Z.mod_add, Z.mod_small by lia.
  rewrite !byte_of_Z_of_byte. reflexivity.
Qed.

Lemma decode_header (buffer : list byte) (opcode block : Z) :
  decode buffer = Ok (opcode, block) -> firstn 4 buffer = u16 opcode ++ u16 block.
Proof.
  unfold decode. intros Hd.
  destruct (firstn 4 buffer) as [|a1 [|a0 [|b1 [|b0 [|x l]]]]]; try discriminate.
  cbn [unpack_HH] in Hd.
  apply (f_equal (fun r => match r with
                           | Ok (o, b) => u16 o ++ u16 b
                           | Raise _ => []
                           end)) in Hd.
  cbv beta iota in Hd. rewrite <- Hd, !u16_of_bytes. reflexivity.
Qed.

Lemma decode_error_packet (code_hi code_lo : byte) (message : list byte) :
  decode (error_packet code_hi code_lo message)
  = Ok (OPCODES ERROR, Z.lor (Z.shiftl (Z_of_byte code_hi) 8) (Z_of_byte code_lo)).
Proof. reflexivity. Qed.

Lemma put_loop_reject (reply : list byte) (inbox : list Recv) (file : list byte)
    (bn opcode block : Z) :
  0 <= bn < 65535 ->
  decode reply = Ok (opcode, block) ->
  opcode <> OPCODES ACK \/ block <> bn + 1 ->
  put_loop a (Datagram reply :: inbox) file bn =
    ([Sendto (data_packet (bn + 1) (firstn 512 file)) a; Recvd; Print InvalidAck],
     Returned).
Proof.
  intros Hbn Hd Hbad. rewrite put_loop_reply by lia. rewrite Hd.
  replace (negb (opcode =? OPCODES ACK) || negb (block =? bn + 1)) with true by lia.
  reflexivity.
Qed.

End Unexpected.

(** C2, the claim as written fails.  A download whose first datagram is an
    ERROR packet ends exactly like one whose first datagram is a stray ACK,
    and exactly like one answered with another error code and message: the
    report is "Invalid DATA packet received" and neither the code nor the
    message shows in anything the run does. *)
Lemma error_packet_is_not_told_apart :
  let a : Address := ("server"%string, 69) in
  let not_found := error_packet x00 x01 (encode "File not found") in
  let denied := error_packet x00 x02 (encode "Access violation") in
  handle_get "f" a None [Datagram not_found]
  = mkRun [OpenWrite; Recvd; Print InvalidData; CloseFile] (Some []) Returned
  /\ handle_get "f" a None [Datagram not_found]
     = handle_get "f" a None [Datagram (ack_packet 7)]
  /\ handle_get "f" a None [Datagram not_found]
     = handle_get "f" a None [Datagram denied].
Proof. repeat split. Qed.

(** C2 (as amended).  At any point of a download, an inbound ERROR packet
    (opcode 5) ends the transfer as failed with the same report as any other
    packet that is not the expected DATA block, "Invalid DATA packet
    received": nothing is written, nothing is acknowledged, the loop is
    left, and the outcome does not depend on the packet's error code or
    message, which are not surfaced. *)
Theorem error_packet_ends_download_as_invalid_data :
  forall (a : Address) (code_hi code_lo : byte) (message : list byte)
         (inbox : list Recv) (file : list byte) (block_number : Z),
    get_loop a (Datagram (error_packet code_hi code_lo message) :: inbox)
             file block_number
    = ([Recvd; Print InvalidData], (file, Returned)).
Proof.
  intros a code_hi code_lo message inbox file block_number.
  apply (get_loop_reject a _ inbox file block_number _ _
           (decode_error_packet code_hi code_lo message)).
  left. discriminate.
Qed.

(** C3, the claim as written fails.  A buffer whose opcode field is 9 is
    decoded without any failure. *)
Lemma unknown_opcode_is_decoded :
  decode [x00; x09; x00; x01] = Ok (9, 1).
Proof. reflexivity. Qed.

(** C3 (as amended).  Decoding reads the first four bytes of the buffer as
    two big-endian 16-bit fields, opcode and block, and is a function of
    the buffer alone.  It succeeds on every buffer of at least 4 bytes,
    whatever the opcode.  An opcode outside 1..5 is no decoding failure:
    the loop that reads the packet reports it as an invalid DATA packet
    (download) or an invalid ACK (upload) and returns normally. *)
Theorem decode_reads_opcode_and_block :
  forall (a : Address) (buffer : list byte) (inbox : list Recv)
         (file : list byte) (block_number : Z),
    (4 <= List.length buffer)%nat ->
    exists opcode block,
      decode buffer = Ok (opcode, block)
      /\ firstn 4 buffer = u16 opcode ++ u16 block
      /\ (~ 1 <= opcode <= 5 ->
          get_loop a (Datagram buffer :: inbox) file block_number
          = ([Recvd; Print InvalidData], (file, Returned))
          /\ (0 <= block_number < 65535 ->
              put_loop a (Datagram buffer :: inbox) file block_number
              = ([Sendto (data_packet (block_number + 1) (firstn 512 file)) a;
                  Recvd; Print InvalidAck], Returned))).
Proof.
  intros a buffer inbox file bn Hlen.
  destruct (decode_cases buffer) as [[Hshort _]|(_ & opcode & block & Hd & _ & _)];
    [lia|].
  exists opcode, block. split; [exact Hd|]. split; [exact (decode_header _ _ _ Hd)|].
  intros Hunknown. split.
  - apply (get_loop_reject a buffer inbox file bn _ _ Hd). left. cbn. lia.
  - intros Hbn. apply (put_loop_reject a buffer inbox file bn _ _ Hbn Hd).
    left. cbn. lia.
Qed.

Lemma decode_reads_opcode_and_block_witness :
  (4 <= List.length [x00; x09; x00; x01; x41])%nat
  /\ exists opcode block, decode [x00; x09; x00; x01; x41] = Ok (opcode, block).
Proof.
  assert (Hlen : (4 <= List.length [x00; x09; x00; x01; x41])%nat) by (cbn; lia).
  split; [exact Hlen|].
  destruct (decode_reads_opcode_and_block ("h"%string, 69)
              [x00; x09; x00; x01; x41] [] [] 0 Hlen)
    as (opcode & block & Hd & _).
  exists opcode, block. exact Hd.
Defined.

(** C6, the code misses a case.  An upload of a 3-byte file gets, in reply
    to DATA block 1, a datagram of 3 bytes.  That reply is no ACK, yet no
    "Invalid ACK received." is printed: [struct.unpack] raises
    [struct.error], which the [except socket.timeout] clause does not
    catch, and the exception leaves [handle_put] and [main] once the file
    and the socket are closed. *)
Theorem short_reply_aborts_upload :
  main "server" None "put" "f" (Some [x01; x02; x03]) [Datagram [x00; x04; x00]]
  = mkRun [Print (InitiatingPut "f" "server" 69);
           Sendto [x00; x02; x66; x00; x6f; x63; x74; x65; x74; x00]
                  ("server"%string, 69);
           OpenRead;
           Sendto (data_packet 1 [x01; x02; x03]) ("server"%string, 69);
           Recvd; CloseFile; CloseSock]
          (Some [x01; x02; x03]) (Raised struct_error).
Proof. reflexivity. Qed.

(** X16.  In an upload, a reply of at least 4 bytes that is not the ACK of
    the block just sent (its opcode is not ACK, or it acknowledges another
    block) makes the upload report "Invalid ACK received." and leave the
    loop: the DATA packet already sent is the last datagram of the
    transfer. *)
Theorem invalid_ack_ends_upload :
  forall (a : Address) (reply : list byte) (inbox : list Recv)
         (file : list byte) (block_number opcode block : Z),
    0 <= block_number < 65535 ->
    decode reply = Ok (opcode, block) ->
    opcode <> OPCODES ACK \/ block <> block_number + 1 ->
    put_loop a (Datagram reply :: inbox) file block_number
    = ([Sendto (data_packet (block_number + 1) (firstn 512 file)) a;
        Recvd; Print InvalidAck], Returned).
Proof.
  intros a reply inbox file bn opcode block Hbn Hd Hbad.
  exact (put_loop_reject a reply inbox file bn opcode block Hbn Hd Hbad).
Qed.

Lemma invalid_ack_ends_upload_witness :
  handle_put "f" ("h"%string, 69) (Some (repeat x2a 600))
             [Datagram (ack_packet 2); Datagram (ack_packet 2)]
  = mkRun [OpenRead;
           Sendto (data_packet 1 (repeat x2a 512)) ("h"%string, 69);
           Recvd; Print InvalidAck; CloseFile]
          (Some (repeat x2a 600)) Returned.
Proof.
  unfold handle_put.
  rewrite (invalid_ack_ends_upload ("h"%string, 69) (ack_packet 2)
             [Datagram (ack_packet 2)] (repeat x2a 600) 0 4 2).
  - reflexivity.
  - lia.
  - reflexivity.
  - right. discriminate.
Defined.


(** ** Timeouts and closing the socket *)

Section Closing.

Variable a : Address.

Lemma socket_closes_app (t1 t2 : list Event) :
  socket_closes (t1 ++ t2) = (socket_closes t1 + socket_closes t2)%nat.
Proof. unfold socket_closes. rewrite filter_app, length_app. reflexivity. Qed.

Lemma after_timeout_app (t1 t2 : list Event) :
  after_timeout (t1 ++ t2)
  = match after_timeout t1 with
    | Some post => Some (post ++ t2)
    | None => after_timeout t2
    end.
Proof.
  induction t1 as [|e t1 IH]; [reflexivity|].
  destruct e; cbn [app after_timeout]; auto.
Qed.

Lemma put_loop_stops_on_timeout (inbox : list Recv) :
  forall (file : list byte) (bn : Z),
    stops_on_timeout TimeoutAck (fst (put_loop a inbox file bn))
                     (snd (put_loop a inbox file bn)).
Proof.
  unfold stops_on_timeout.
  induction inbox as [|r inbox IH]; intros file bn; cbn [put_loop read];
    destruct (pack_HH (OPCODES DATA) (bn + 1)) as [header|e];
    try (split; [reflexivity | discriminate]).
  - split; [reflexivity|]. cbn. intros post [= <-]. auto.
  - destruct r as [d|]; [|split; [reflexivity|]; cbn; intros post [= <-]; auto].
    destruct (decode (firstn BUFFER_SIZE d)) as [[opcode ack_block]|e];
      [|split; [reflexivity | discriminate]].
    destruct (negb (opcode =? OPCODES ACK) || negb (ack_block =? bn + 1));
      [split; [reflexivity | discriminate]|].
    destruct (List.length (firstn 512 file) <? 512)%nat;
      [split; [reflexivity | discriminate]|].
    exact (IH (skipn 512 file) (bn + 1)).
Qed.

Lemma get_loop_stops_on_timeout (inbox : list Recv) :
  forall (file : list byte) (bn : Z),
    stops_on_timeout TimeoutData (fst (get_loop a inbox file bn))
                     (snd (snd (get_loop a inbox file bn))).
Proof.
  unfold stops_on_timeout.
  induction inbox as [|r inbox IH]; intros file bn; cbn [get_loop].
  - split; [reflexivity|]. cbn. intros post [= <-]. auto.
  - destruct r as [d|]; [|split; [reflexivity|]; cbn; intros post [= <-]; auto].
    destruct (decode (firstn BUFFER_SIZE d)) as [[opcode received_block]|e];
      [|split; [reflexivity | discriminate]].
    destruct (negb (opcode =? OPCODES DATA) || negb (received_block =? bn + 1));
      [split; [reflexivity | discriminate]|].
    destruct (send_ack received_block a) as [ack|e] eqn:Hack;
      [|split; [reflexivity | discriminate]].
    unfold send_ack in Hack.
    destruct (pack_HH (OPCODES ACK) received_block) as [packet|e]; [|discriminate].
    injection Hack as <-.
    destruct (List.length (skipn 4 (firstn BUFFER_SIZE d)) <? 512)%nat;
      [split; [reflexivity | discriminate]|].
    exact (IH (file ++ skipn 4 (firstn BUFFER_SIZE d)) received_block).
Qed.

(** A handler opens at most one file, closes it once it is done with it
    and leaves the socket to its caller. *)
Lemma handler_stops_on_timeout (report : Message) (opening : Event)
    (tr : list Event) (o : Outcome) :
  match opening with OpenRead | OpenWrite => True | _ => False end ->
  stops_on_timeout report tr o ->
  socket_closes (opening :: tr ++ [CloseFile]) = 0%nat
  /\ forall post, after_timeout (opening :: tr ++ [CloseFile]) = Some post ->
                  post = [Print report; CloseFile] /\ o = Returned.
Proof.
  intros Hopen [Hclose Hafter].
  assert (Hsame : socket_closes (opening :: tr ++ [CloseFile]) = socket_closes tr
                  /\ after_timeout (opening :: tr ++ [CloseFile])
                     = after_timeout (tr ++ [CloseFile])).
  { change (opening :: tr ++ [CloseFile]) with ([opening] ++ tr ++ [CloseFile]).
    rewrite !socket_closes_app.
    destruct opening; try contradiction; cbn; split; auto using Nat.add_0_r. }
  destruct Hsame as [-> ->]. split; [assumption|].
  intros post. rewrite after_timeout_app.
  destruct (after_timeout tr) as [post'|]; [|discriminate].
  intros [= <-]. destruct (Hafter post' eq_refl) as [-> ->]. auto.
Qed.

Lemma handle_put_stops_on_timeout (filename : string) (local : option (list byte))
    (inbox : list Recv) :
  let r := handle_put filename a local inbox in
  socket_closes (trace r) = 0%nat
  /\ forall post, after_timeout (trace r) = Some post ->
                  post = [Print TimeoutAck; CloseFile] /\ outcome r = Returned.
Proof.
  cbv zeta. unfold handle_put. destruct local as [content|].
  - pose proof (put_loop_stops_on_timeout inbox content 0) as H.
    destruct (put_loop a inbox content 0) as [tr o]. cbn [fst snd] in H.
    cbn [trace outcome]. apply handler_stops_on_timeout; [exact I | exact H].
  - split; [reflexivity | discriminate].
Qed.

Lemma handle_get_stops_on_timeout (filename : string) (local : option (list byte))
    (inbox : list Recv) :
  let r := handle_get filename a local inbox in
  socket_closes (trace r) = 0%nat
  /\ forall post, after_timeout (trace r) = Some post ->
                  post = [Print TimeoutData; CloseFile] /\ outcome r = Returned.
Proof.
  cbv zeta. unfold handle_get.
  pose proof (get_loop_stops_on_timeout inbox [] 0) as H.
  destruct (get_loop a inbox [] 0) as [tr [file o]]. cbn [fst snd] in H.
  cbn [trace outcome]. apply handler_stops_on_timeout; [exact I | exact H].
Qed.

(** The driver around a handler: two effects before it, closing the socket
    after it. *)
Lemma driver_closes_once (report : Message) (m : Message) (request : list byte)
    (tr : list Event) (o : Outcome) :
  socket_closes tr = 0%nat ->
  (forall post, after_timeout tr = Some post ->
                post = [Print report; CloseFile] /\ o = Returned) ->
  let whole := Print m :: Sendto request a :: tr ++ [CloseSock] in
  socket_closes whole = 1%nat
  /\ (exists before, whole = before ++ [CloseSock])
  /\ forall post, after_timeout whole = Some post ->
                  post = [Print report; CloseFile; CloseSock] /\ o = Returned.
Proof.
  intros Hclose Hafter. cbv zeta. repeat split.
  - change (Print m :: Sendto request a :: tr ++ [CloseSock])
      with ([Print m; Sendto request a] ++ tr ++ [CloseSock]).
    rewrite !socket_closes_app, Hclose. reflexivity.
  - exists (Print m :: Sendto request a :: tr). reflexivity.
  - cbn [after_timeout] in H. rewrite after_timeout_app in H.
    destruct (after_timeout tr) as [post'|]; [|discriminate].
    injection H as <-. destruct (Hafter post' eq_refl) as [-> _]. reflexivity.
  - cbn [after_timeout] in H. rewrite after_timeout_app in H.
    destruct (after_timeout tr) as [post'|]; [|discriminate].
    destruct (Hafter post' eq_refl) as [_ ->]. reflexivity.
Qed.

End Closing.

Lemma sendto_ok (packet : list byte) (host : string) (p : Z) :
  0 <= p <= 65535 -> sendto packet (host, p) = Ok (Sendto packet (host, p)).
Proof.
  intros Hp. unfold sendto. cbn [snd].
  replace ((0 <=? p) && (p <=? 65535)) with true by lia. reflexivity.
Qed.


Lemma sendto_sent (packet : list byte) (address : Address) (e : Event) :
  sendto packet address = Ok e -> e = Sendto packet address.
Proof.
  unfold sendto.
  destruct ((0 <=? snd address) && (snd address <=? 65535)); [|discriminate].
  intros [= <-]. reflexivity.
Qed.

Lemma request_built (opcode : OpcodeName) (filename : string) :
  opcode = RRQ \/ opcode = WRQ ->
  exists request, build_request (OPCODES opcode) filename octet = Ok request.
Proof. intros [-> | ->]; eexists; reflexivity. Qed.

(** C7.  Every run of the client closes the socket exactly once, as the
    last thing it does, however the run ends.  When nothing arrives at a
    wait, that single wait is the end of the transfer: the run prints the
    timeout report, closes the file and the socket and returns, without
    sending anything again and without a second wait.  This holds at the
    first wait and after any number of blocks: a download whose first
    datagrams are accepted and an upload whose first blocks are
    acknowledged end in this way at the first silent wait. *)
Theorem timeout_ends_transfer_and_socket_closes_once :
  forall (host : string) (port : option Z) (filename : string),
    let p := match port with Some p => p | None => 69 end in
    (forall (operation : string) (local : option (list byte)) (inbox : list Recv),
        let r := main host port operation filename local inbox in
        socket_closes (trace r) = 1%nat
        /\ (exists before, trace r = before ++ [CloseSock])
        /\ forall post,
            after_timeout (trace r) = Some post ->
            (post = [Print TimeoutAck; CloseFile; CloseSock]
             \/ post = [Print TimeoutData; CloseFile; CloseSock])
            /\ outcome r = Returned)
    /\ (forall (local : option (list byte)) (ds : list (list byte))
               (silence : list Recv),
           0 <= p <= 65535 -> open_wb filename = Ok OpenWrite ->
           in_sequence 1 ds -> no_datagram silence ->
           exists request,
             build_request (OPCODES RRQ) filename octet = Ok request
             /\ main host port "get" filename local (map Datagram ds ++ silence)
                = mkRun (Print (InitiatingGet filename host p)
                           :: Sendto request (host, p)
                           :: (OpenWrite
                                 :: (down_rounds (host, p) 1 (map received_payload ds)
                                       ++ [TimedOut; Print TimeoutData])
                                 ++ [CloseFile])
                           ++ [CloseSock])
                        (Some (List.concat (map received_payload ds))) Returned)
    /\ (forall (chunks : list (list byte)) (rest : list byte)
               (silence : list Recv),
           0 <= p <= 65535 ->
           Forall full_block chunks -> Z.of_nat (List.length chunks) < 65535 ->
           no_datagram silence ->
           exists request,
             build_request (OPCODES WRQ) filename octet = Ok request
             /\ main host port "put" filename (Some (List.concat chunks ++ rest))
                     (acks_from 1 (List.length chunks) ++ silence)
                = mkRun (Print (InitiatingPut filename host p)
                           :: Sendto request (host, p)
                           :: (OpenRead
                                 :: (up_rounds (host, p) 1 chunks
                                       ++ [Sendto (data_packet
                                                     (Z.of_nat (List.length chunks) + 1)
                                                     (firstn 512 rest)) (host, p);
                                           TimedOut; Print TimeoutAck])
                                 ++ [CloseFile])
                           ++ [CloseSock])
                        (Some (List.concat chunks ++ rest)) Returned).
Proof.
  intros host port filename. cbv zeta.
  set (p := match port with Some p => p | None => 69 end).
  split; [|split].
  - intros operation local inbox. unfold main. fold p.
    destruct (operation =? "get")%string.
    + destruct (build_request (OPCODES RRQ) filename octet) as [request|e].
      * destruct (sendto request (host, p)) as [request_sent|e] eqn:Hsend.
        -- apply sendto_sent in Hsend. subst request_sent.
           destruct (open_wb filename) as [opened|e].
           ++ cbn [trace outcome].
              destruct (handle_get_stops_on_timeout (host, p) filename local inbox)
                as [Hclose Hafter].
              destruct (driver_closes_once (host, p) TimeoutData
                          (InitiatingGet filename host p) request _ _ Hclose Hafter)
                as (Hone & Hlast & Hpost).
              repeat split; try assumption.
              ** right. apply (Hpost post). assumption.
              ** apply (Hpost post). assumption.
           ++ cbn [trace outcome]. repeat split; try discriminate.
              exists [Print (InitiatingGet filename host p); Sendto request (host, p)].
              reflexivity.
        -- cbn [trace outcome]. repeat split; try discriminate.
           exists [Print (InitiatingGet filename host p)]. reflexivity.
      * cbn [trace outcome]. repeat split; try discriminate.
        exists [Print (InitiatingGet filename host p)]. reflexivity.
    + destruct (operation =? "put")%string.
      * destruct (build_request (OPCODES WRQ) filename octet) as [request|e].
        -- destruct (sendto request (host, p)) as [request_sent|e] eqn:Hsend.
           ++ apply sendto_sent in Hsend. subst request_sent.
              cbn [trace outcome].
              destruct (handle_put_stops_on_timeout (host, p) filename local inbox)
                as [Hclose Hafter].
              destruct (driver_closes_once (host, p) TimeoutAck
                          (InitiatingPut filename host p) request _ _ Hclose Hafter)
                as (Hone & Hlast & Hpost).
              repeat split; try assumption.
              ** left. apply (Hpost post). assumption.
              ** apply (Hpost post). assumption.
           ++ cbn [trace outcome]. repeat split; try discriminate.
              exists [Print (InitiatingPut filename host p)]. reflexivity.
        -- cbn [trace outcome]. repeat split; try discriminate.
           exists [Print (InitiatingPut filename host p)]. reflexivity.
      * cbn [trace outcome]. repeat split; try discriminate.
        exists [Print InvalidOperation]. reflexivity.
  - intros local ds silence Hp Hopen Hseq Hsilent.
    destruct (request_built RRQ filename (or_introl eq_refl)) as [request Hreq].
    exists request. split; [exact Hreq|].
    unfold main. fold p.
    change ("get" =? "get")%string with true. cbv iota.
    rewrite Hreq, (sendto_ok request host p Hp), Hopen.
    unfold handle_get.
    pose proof (get_rounds_any (host, p) ds silence [] 0) as H.
    change (0 + 1) with 1 in H. rewrite H by (assumption || lia). clear H.
    rewrite get_loop_timeout by assumption.
    unfold emit. cbn [fst snd trace disk outcome app]. reflexivity.
  - intros chunks rest silence Hp Hfull Hmax Hsilent.
    destruct (request_built WRQ filename (or_intror eq_refl)) as [request Hreq].
    exists request. split; [exact Hreq|].
    unfold main. fold p.
    change ("put" =? "get")%string with false.
    change ("put" =? "put")%string with true. cbv iota.
    rewrite Hreq, (sendto_ok request host p Hp).
    unfold handle_put.
    pose proof (put_rounds (host, p) chunks rest silence 0 Hfull) as H.
    change (0 + 1) with 1 in H. rewrite H by lia. clear H.
    rewrite Z.add_0_l.
    rewrite put_loop_timeout by (assumption || lia).
    unfold emit. cbn [fst snd trace disk outcome]. reflexivity.
Qed.

Lemma timeout_ends_transfer_and_socket_closes_once_witness :
  exists request,
    main "server" None "put" "f" (Some (repeat x2a 700))
         [Datagram (ack_packet 1); Silence; Datagram (ack_packet 2)]
    = mkRun [Print (InitiatingPut "f" "server" 69);
             Sendto request ("server"%string, 69);
             OpenRead;
             Sendto (data_packet 1 (repeat x2a 512)) ("server"%string, 69); Recvd;
             Sendto (data_packet 2 (repeat x2a 188)) ("server"%string, 69);
             TimedOut; Print TimeoutAck; CloseFile; CloseSock]
            (Some (repeat x2a 700)) Returned.
Proof.
  destruct (timeout_ends_transfer_and_socket_closes_once "server" None "f")
    as (_ & _ & Hput).
  destruct (Hput [repeat x2a 512] (repeat x2a 188)
              [Silence; Datagram (ack_packet 2)])
    as (request & _ & Hrun).
  - lia.
  - repeat constructor.
  - cbn. lia.
  - exact I.
  - exists request. exact Hrun.
Defined.




(** ** Request packets *)

Section Requests.

Lemma byte_of_Z_N_of_ascii (c : ascii) :
  byte_of_Z (Z.of_N (N_of_ascii c)) = byte_of_ascii c.
Proof.
  unfold byte_of_Z. rewrite N2Z.id, <- byte_of_ascii_via_N. reflexivity.
Qed.

Lemma encode_char_ascii (c : ascii) :
  (N_of_ascii c < 128)%N -> encode_char c = [byte_of_ascii c].
Proof.
  intros Hc. unfold encode_char.
  replace (Z.of_N (N_of_ascii c) <? 128) with true by lia.
  rewrite byte_of_Z_N_of_ascii. reflexivity.
Qed.

Lemma encode_valid (s : string) :
  valid_field s -> encode s = list_byte_of_string s.
Proof.
  unfold valid_field, encode, list_byte_of_string.
  induction (list_ascii_of_string s) as [|c cs IH]; intros Hvalid; [reflexivity|].
  inversion Hvalid as [|? ? Hc Hcs]; subst.
  cbn [flat_map map]. rewrite encode_char_ascii by lia. rewrite IH by assumption.
  reflexivity.
Qed.

Lemma length_list_byte_of_string (s : string) :
  List.length (list_byte_of_string s) = String.length s.
Proof.
  unfold list_byte_of_string. rewrite length_map.
  induction s as [|c s IH]; cbn; [reflexivity | rewrite IH; reflexivity].
Qed.

Lemma pack_s_terminated (n : nat) (bs : list byte) :
  List.length bs = n -> pack_s (n + 1) bs = bs ++ [x00].
Proof.
  intros Hn. unfold pack_s. rewrite firstn_all2 by lia.
  replace (n + 1 - List.length bs)%nat with 1%nat by lia. reflexivity.
Qed.

Lemma valid_field_no_nul (s : string) :
  valid_field s -> ~ In x00 (list_byte_of_string s).
Proof.
  unfold valid_field, list_byte_of_string. intros Hvalid Hin.
  apply in_map_iff in Hin. destruct Hin as (c & Hc & Hin).
  rewrite Forall_forall in Hvalid. specialize (Hvalid c Hin).
  apply (f_equal ascii_of_byte) in Hc. rewrite ascii_of_byte_of_ascii in Hc.
  subst c. cbn in Hvalid. lia.
Qed.

Lemma until_nul_field (bs rest : list byte) :
  ~ In x00 bs -> until_nul (bs ++ x00 :: rest) = Some (bs, rest).
Proof.
  induction bs as [|b bs IH]; intros Hnul; cbn [app until_nul].
  - reflexivity.
  - destruct (Byte.eqb b x00) eqn:E.
    + apply Byte.byte_dec_bl in E. subst b. exfalso. apply Hnul. left. reflexivity.
    + rewrite IH; [reflexivity|]. intros Hin. apply Hnul. right. assumption.
Qed.

Lemma decode_request_fields (opcode : Z) (fields : list byte) :
  opcode = OPCODES RRQ \/ opcode = OPCODES WRQ ->
  decode_request (u16 opcode ++ fields)
  = match until_nul fields with
    | Some (filename, fields) =>
        match until_nul fields with
        | Some (mode, []) =>
            Some (opcode, string_of_list_byte filename, string_of_list_byte mode)
        | _ => None
        end
    | None => None
    end.
Proof. intros [-> | ->]; reflexivity. Qed.

End Requests.

(** C8.  For the opcodes RRQ and WRQ and every file name and mode made of
    ASCII characters without NUL (the file name not empty),
    [build_request] produces exactly the two opcode bytes in network order,
    the file name, a NUL byte, the mode and a NUL byte; reading that layout
    back gives the opcode, the file name and the mode again. *)
Theorem build_request_layout :
  forall (opcode : Z) (filename mode : string),
    opcode = OPCODES RRQ \/ opcode = OPCODES WRQ ->
    filename <> ""%string ->
    valid_field filename -> valid_field mode ->
    let packet := u16 opcode ++ list_byte_of_string filename ++ [x00]
                    ++ list_byte_of_string mode ++ [x00] in
    build_request opcode filename mode = Ok packet
    /\ decode_request packet = Some (opcode, filename, mode).
Proof.
  intros opcode filename mode Hop _ Hfile Hmode. cbv zeta. split.
  - unfold build_request.
    rewrite pack_H_ok by (destruct Hop as [-> | ->]; cbn; lia).
    cbn [bind]. rewrite !encode_valid by assumption.
    rewrite !pack_s_terminated by apply length_list_byte_of_string.
    rewrite <- !app_assoc. reflexivity.
  - rewrite decode_request_fields by assumption.
    cbn [app].
    rewrite until_nul_field by (apply valid_field_no_nul; assumption).
    rewrite until_nul_field by (apply valid_field_no_nul; assumption).
    rewrite !string_of_list_byte_of_string. reflexivity.
Qed.

Lemma build_request_layout_witness :
  build_request 1 "boot.img" "octet"
  = Ok [x00; x01; x62; x6f; x6f; x74; x2e; x69; x6d; x67; x00;
        x6f; x63; x74; x65; x74; x00]
  /\ decode_request [x00; x01; x62; x6f; x6f; x74; x2e; x69; x6d; x67; x00;
                     x6f; x63; x74; x65; x74; x00]
     = Some (1, "boot.img"%string, "octet"%string).
Proof.
  apply (build_request_layout 1 "boot.img" "octet").
  - left. reflexivity.
  - discriminate.
  - unfold valid_field. cbn. repeat constructor.
  - unfold valid_field. cbn. repeat constructor.
Defined.


(** ** More about [struct] and request packets *)

Section Packing.

Lemma unpack_HH_length (bs : list byte) (x y : Z) :
  unpack_HH bs = Ok (x, y) -> List.length bs = 4%nat.
Proof.
  destruct bs as [|a1 [|a0 [|b1 [|b0 [|z bs]]]]]; try discriminate. reflexivity.
Qed.

Lemma pack_s_length (n : nat) (bs : list byte) : List.length (pack_s n bs) = n.
Proof.
  unfold pack_s. rewrite length_app, length_firstn, repeat_length. lia.
Qed.

Lemma pack_s_long (n : nat) (bs : list byte) :
  (n <= List.length bs)%nat -> pack_s n bs = firstn n bs.
Proof.
  intros Hn. unfold pack_s.
  replace (n - List.length bs)%nat with 0%nat by lia. apply app_nil_r.
Qed.

Lemma in_firstn {A : Type} (x : A) (n : nat) (l : list A) :
  In x (firstn n l) -> In x l.
Proof.
  intros Hin. rewrite <- (firstn_skipn n l). apply in_or_app. left. assumption.
Qed.

Lemma encode_char_length (c : ascii) :
  List.length (encode_char c)
  = if (N_of_ascii c <? 128)%N then 1%nat else 2%nat.
Proof.
  unfold encode_char.
  destruct (N.ltb_spec (N_of_ascii c) 128) as [Hlt|Hge].
  - replace (Z.of_N (N_of_ascii c) <? 128) with true by lia. reflexivity.
  - replace (Z.of_N (N_of_ascii c) <? 128) with false by lia. reflexivity.
Qed.

Lemma encode_char_no_nul (c : ascii) :
  (0 < N_of_ascii c)%N -> ~ In x00 (encode_char c).
Proof.
  destruct c as [[] [] [] [] [] [] [] []]; vm_compute;
    intros H; try discriminate H; intuition discriminate.
Qed.

Lemma encode_length_chars (cs : list ascii) :
  (List.length cs <= List.length (flat_map encode_char cs))%nat
  /\ (Exists (fun c => (128 <= N_of_ascii c)%N) cs ->
      (List.length cs < List.length (flat_map encode_char cs))%nat).
Proof.
  induction cs as [|c cs [IHle IHlt]]; cbn [flat_map List.length].
  - split; [lia|]. intros H. inversion H.
  - rewrite length_app, encode_char_length.
    destruct (N.ltb_spec (N_of_ascii c) 128) as [Hlt|Hge].
    + split; [lia|]. intros H. inversion H as [? ? Hc|? ? Hcs]; subst; [lia|].
      specialize (IHlt Hcs). lia.
    + split; lia.
Qed.

Lemma encode_no_nul_chars (cs : list ascii) :
  Forall (fun c => (0 < N_of_ascii c)%N) cs -> ~ In x00 (flat_map encode_char cs).
Proof.
  induction cs as [|c cs IH]; intros Hall; cbn [flat_map]; [intros []|].
  inversion Hall as [|? ? Hc Hcs]; subst.
  intros Hin. apply in_app_or in Hin. destruct Hin as [Hin|Hin].
  - exact (encode_char_no_nul c Hc Hin).
  - exact (IH Hcs Hin).
Qed.

Lemma string_length_chars (s : string) :
  List.length (list_ascii_of_string s) = String.length s.
Proof.
  induction s as [|c s IH]; cbn; [reflexivity | rewrite IH; reflexivity].
Qed.

End Packing.

(** X1.  [struct.pack("!HH", a, b)] and [struct.unpack("!HH", buf)] are
    inverse to each other: packing [a] and [b] succeeds with [buf] exactly
    when unpacking [buf] succeeds with [a] and [b]. *)
Theorem pack_HH_unpack_HH_inverse :
  forall (a b : Z) (buf : list byte),
    pack_HH a b = Ok buf <-> unpack_HH buf = Ok (a, b).
Proof.
  intros a b buf. split.
  - intros Hpack.
    destruct (Z_le_dec 0 a) as [Ha0|Ha0];
      [destruct (Z_le_dec a 65535) as [Ha|Ha]|];
      try (unfold pack_HH in Hpack; rewrite pack_H_raise in Hpack by lia;
           discriminate Hpack).
    destruct (Z_le_dec 0 b) as [Hb0|Hb0];
      [destruct (Z_le_dec b 65535) as [Hb|Hb]|];
      try (rewrite pack_HH_raise in Hpack by lia; discriminate Hpack).
    rewrite pack_HH_ok in Hpack by lia. injection Hpack as <-.
    apply unpack_HH_u16; lia.
  - intros Hunpack.
    pose proof (unpack_HH_length buf a b Hunpack) as Hlen.
    assert (Hd : decode buf = Ok (a, b)).
    { unfold decode. rewrite firstn_all2 by lia. exact Hunpack. }
    pose proof (decode_range buf a b Hd) as [Ha Hb].
    pose proof (decode_header buf a b Hd) as Hh.
    rewrite firstn_all2 in Hh by lia.
    rewrite pack_HH_ok by assumption. rewrite Hh. reflexivity.
Qed.

(** X2.  Whenever [build_request] returns a packet, the opcode fits
    16 bits and the packet is exactly [len(filename) + len(mode) + 4] bytes
    long, whatever the characters of the file name and of the mode: an
    encoding longer than the name is cut, never lengthening the packet. *)
Theorem build_request_size :
  forall (opcode : Z) (filename mode : string) (packet : list byte),
    build_request opcode filename mode = Ok packet ->
    0 <= opcode <= 65535
    /\ List.length packet = (String.length filename + String.length mode + 4)%nat.
Proof.
  intros opcode filename mode packet. unfold build_request.
  destruct (Z_le_dec 0 opcode) as [H0|H0];
    [destruct (Z_le_dec opcode 65535) as [H1|H1]|];
    try (rewrite pack_H_raise by lia; discriminate).
  rewrite pack_H_ok by lia. cbn [bind]. intros E.
  apply (f_equal (fun r => match r with
                           | Ok l => List.length l
                           | Raise _ => 0%nat
                           end)) in E.
  cbv beta iota in E. rewrite <- E. split; [lia|].
  rewrite !length_app, !pack_s_length. cbn [u16 List.length]. lia.
Qed.

Lemma build_request_size_witness :
  List.length [x00; x02; x61; x2e; x62; x69; x6e; x00; x6f; x63; x74; x65; x74; x00]
  = (String.length "a.bin" + String.length "octet" + 4)%nat.
Proof.
  apply (build_request_size 2 "a.bin" "octet"). reflexivity.
Defined.

(** X3.  A file name without NUL characters that holds a character outside
    ASCII makes [build_request] cut its UTF-8 encoding to
    [len(filename) + 1] bytes: the file name field of the packet then
    contains no NUL byte at all, so the name is not terminated where the
    mode begins. *)
Theorem non_ascii_filename_is_not_terminated :
  forall (opcode : Z) (filename mode : string) (packet : list byte),
    build_request opcode filename mode = Ok packet ->
    Forall (fun c => (0 < N_of_ascii c)%N) (list_ascii_of_string filename) ->
    Exists (fun c => (128 <= N_of_ascii c)%N) (list_ascii_of_string filename) ->
    let field := firstn (String.length filename + 1) (skipn 2 packet) in
    field = firstn (String.length filename + 1) (encode filename)
    /\ ~ In x00 field.
Proof.
  intros opcode filename mode packet Hbuild Hnonul Hnonascii. cbv zeta.
  unfold build_request in Hbuild.
  destruct (pack_H opcode) as [op|e] eqn:Hop; [|discriminate].
  assert (Hlen : List.length op = 2%nat).
  { unfold pack_H in Hop.
    destruct ((0 <=? opcode) && (opcode <=? 65535)); [|discriminate].
    injection Hop as <-. reflexivity. }
  cbn [bind] in Hbuild. injection Hbuild as <-.
  rewrite skipn_app, Hlen, Nat.sub_diag, skipn_O.
  rewrite skipn_all2 by lia. cbn [app].
  rewrite firstn_app, pack_s_length, Nat.sub_diag, firstn_O, app_nil_r.
  rewrite firstn_all2 by (rewrite pack_s_length; lia).
  destruct (encode_length_chars (list_ascii_of_string filename)) as [_ Hlong].
  specialize (Hlong Hnonascii). rewrite string_length_chars in Hlong.
  rewrite pack_s_long by (unfold encode; lia).
  split; [reflexivity|].
  intros Hin. apply in_firstn in Hin.
  exact (encode_no_nul_chars _ Hnonul Hin).
Qed.

Lemma non_ascii_filename_is_not_terminated_witness :
  ~ In x00 (firstn 3 (skipn 2 [x00; x01; xc3; xa9; x74; x6f; x63; x74; x65; x74; x00])).
Proof.
  apply (non_ascii_filename_is_not_terminated 1 (String (ascii_of_nat 233) "t")
           "octet" [x00; x01; xc3; xa9; x74; x6f; x63; x74; x65; x74; x00]).
  - reflexivity.
  - repeat constructor.
  - left. vm_compute. discriminate.
Defined.


(** ** Uploads, whatever the server answers *)

Section Uploads.

Variable a : Address.

Lemma firstn_add {A : Type} (n m : nat) (l : list A) :
  firstn (n + m) l = firstn n l ++ firstn m (skipn n l).
Proof.
  revert l. induction n as [|n IH]; intros l; [reflexivity|].
  destruct l as [|x l]; cbn [Nat.add firstn skipn app].
  - rewrite firstn_nil. reflexivity.
  - rewrite IH. reflexivity.
Qed.

Lemma short_read_is_rest (file : list byte) :
  (List.length (firstn 512 file) <? 512)%nat = true -> firstn 512 file = file.
Proof.
  intros H. apply Nat.ltb_lt in H. rewrite length_firstn in H.
  apply firstn_all2. lia.
Qed.

Lemma full_read (file : list byte) :
  (List.length (firstn 512 file) <? 512)%nat = false ->
  List.length (firstn 512 file) = 512%nat
  /\ (512 + List.length (skipn 512 file) = List.length file)%nat.
Proof.
  intros H. apply Nat.ltb_ge in H. rewrite length_firstn in H.
  rewrite length_firstn, length_skipn. lia.
Qed.

Lemma payloads_sent_one (block : Z) (data : list byte) (rest : list Event) :
  payloads (sent (Sendto (data_packet block data) a :: rest))
  = data :: payloads (sent rest).
Proof. reflexivity. Qed.

(** What one iteration of the upload loop does, by cases. *)
Lemma put_loop_cases (inbox : list Recv) (file : list byte) (bn : Z) :
  0 <= bn ->
  put_loop a inbox file bn = ([], Raised struct_error)
  \/ (exists tail o,
         put_loop a inbox file bn
         = (Sendto (data_packet (bn + 1) (firstn 512 file)) a :: tail, o)
         /\ sent tail = []
         /\ (In (Print UploadSuccessful) tail ->
             firstn 512 file = file /\ o = Returned))
  \/ (exists d inbox',
         inbox = Datagram d :: inbox'
         /\ (List.length (firstn 512 file) <? 512)%nat = false
         /\ put_loop a inbox file bn
            = emit [Sendto (data_packet (bn + 1) (firstn 512 file)) a; Recvd]
                   (put_loop a inbox' (skipn 512 file) (bn + 1))).
Proof.
  intros Hbn.
  destruct (Z_lt_dec bn 65535) as [Hlt|Hge];
    [|left; apply put_loop_overflow; lia].
  right.
  destruct inbox as [|[d|] inbox'].
  - left. eexists _, _. split; [apply put_loop_timeout; [lia | exact I]|].
    split; [reflexivity|]. cbn. intuition discriminate.
  - rewrite put_loop_reply by lia.
    destruct (decode d) as [[opcode ack_block]|e].
    + destruct (negb (opcode =? OPCODES ACK) || negb (ack_block =? bn + 1)).
      * left. eexists _, _. split; [reflexivity|]. split; [reflexivity|].
        cbn. intuition discriminate.
      * destruct (List.length (firstn 512 file) <? 512)%nat eqn:Hshort.
        -- left. eexists _, _. split; [reflexivity|]. split; [reflexivity|].
           intros _. split; [apply short_read_is_rest; assumption | reflexivity].
        -- right. exists d, inbox'. auto.
    + left. eexists _, _. split; [reflexivity|]. split; [reflexivity|].
      cbn. intuition discriminate.
  - left. eexists _, _. split; [apply put_loop_timeout; [lia | exact I]|].
    split; [reflexivity|]. cbn. intuition discriminate.
Qed.

(** Whatever the server answers, what has been sent so far is the
    beginning of the file, cut in blocks of 512 bytes. *)
Lemma put_loop_sends_prefix (inbox : list Recv) :
  forall (file : list byte) (bn : Z),
    0 <= bn ->
    let ps := payloads (sent (fst (put_loop a inbox file bn))) in
    List.concat ps = firstn (512 * List.length ps) file
    /\ (512 * (List.length ps - 1) <= List.length file)%nat.
Proof.
  induction inbox as [|r inbox IH]; intros file bn Hbn; cbv zeta;
    match goal with
    | |- context [put_loop a ?i file bn] =>
        destruct (put_loop_cases i file bn Hbn)
          as [E|[(tail & o & E & Hsent & _)|(d & inbox' & Hin & Hfull & E)]]
    end;
    try discriminate Hin.
  1, 3: rewrite E; cbn [fst sent flat_map payloads map List.concat List.length];
    rewrite Nat.mul_0_r; split; [reflexivity | lia].
  1, 2: rewrite E; cbn [fst]; rewrite payloads_sent_one, Hsent;
    cbn [payloads map List.concat List.length];
    rewrite app_nil_r, Nat.mul_1_r; split; [reflexivity | lia].
  injection Hin as Hr Hi. subst r inbox'. rewrite E.
  change (fst (emit [Sendto (data_packet (bn + 1) (firstn 512 file)) a; Recvd]
                    (put_loop a inbox (skipn 512 file) (bn + 1))))
    with (Sendto (data_packet (bn + 1) (firstn 512 file)) a
            :: Recvd :: fst (put_loop a inbox (skipn 512 file) (bn + 1))).
  rewrite payloads_sent_one.
  change (sent (Recvd :: fst (put_loop a inbox (skipn 512 file) (bn + 1))))
    with (sent (fst (put_loop a inbox (skipn 512 file) (bn + 1)))).
  destruct (IH (skipn 512 file) (bn + 1)) as [Hcat Hbound]; [lia|].
  destruct (full_read file Hfull) as [_ Hlen].
  set (ps := payloads (sent (fst (put_loop a inbox (skipn 512 file) (bn + 1))))) in *.
  cbn [List.concat List.length]. rewrite Hcat.
  replace (512 * S (List.length ps))%nat with (512 + 512 * List.length ps)%nat by lia.
  rewrite firstn_add. split; [reflexivity | lia].
Qed.

(** The upload is reported successful only once the whole file has been
    sent. *)
Lemma put_loop_success_is_whole (inbox : list Recv) :
  forall (file : list byte) (bn : Z),
    0 <= bn ->
    In (Print UploadSuccessful) (fst (put_loop a inbox file bn)) ->
    List.concat (payloads (sent (fst (put_loop a inbox file bn)))) = file
    /\ snd (put_loop a inbox file bn) = Returned.
Proof.
  induction inbox as [|r inbox IH]; intros file bn Hbn;
    match goal with
    | |- context [put_loop a ?i file bn] =>
        destruct (put_loop_cases i file bn Hbn)
          as [E|[(tail & o & E & Hsent & Hok)|(d & inbox' & Hin & Hfull & E)]]
    end;
    try discriminate Hin.
  1, 3: rewrite E; intros [].
  1, 2: rewrite E; cbn [fst snd]; intros [Habs|Hsucc]; [discriminate Habs|];
    destruct (Hok Hsucc) as [Hwhole ->];
    rewrite payloads_sent_one, Hsent; cbn [payloads map List.concat];
    rewrite app_nil_r; auto.
  injection Hin as Hr Hi. subst r inbox'. rewrite E.
  change (fst (emit [Sendto (data_packet (bn + 1) (firstn 512 file)) a; Recvd]
                    (put_loop a inbox (skipn 512 file) (bn + 1))))
    with (Sendto (data_packet (bn + 1) (firstn 512 file)) a
            :: Recvd :: fst (put_loop a inbox (skipn 512 file) (bn + 1))).
  intros [Habs|[Habs|Hsucc]]; try discriminate Habs.
  destruct (IH (skipn 512 file) (bn + 1)) as [Hcat Hret]; [lia | assumption |].
  rewrite payloads_sent_one.
  change (sent (Recvd :: fst (put_loop a inbox (skipn 512 file) (bn + 1))))
    with (sent (fst (put_loop a inbox (skipn 512 file) (bn + 1)))).
  cbn [List.concat]. rewrite Hcat, firstn_skipn.
  split; [reflexivity|]. exact Hret.
Qed.

(** Every file is some full blocks followed by a shorter last one. *)
Lemma file_blocks (n : nat) :
  forall file : list byte,
    (List.length file < 512 * n)%nat ->
    exists chunks last,
      file = List.concat chunks ++ last
      /\ Forall full_block chunks
      /\ (List.length last < 512)%nat
      /\ (List.length chunks < n)%nat
      /\ (512 * List.length chunks <= List.length file)%nat.
Proof.
  induction n as [|n IH]; intros file Hlen; [lia|].
  destruct (Nat.lt_ge_cases (List.length file) 512) as [Hshort|Hlong].
  - exists [], file. cbn [List.concat List.length app].
    split; [reflexivity|]. split; [constructor|]. lia.
  - destruct (IH (skipn 512 file)) as (chunks & last & Hfile & Hfull & Hlast & Hn & Hsz).
    { rewrite length_skipn. lia. }
    exists (firstn 512 file :: chunks), last.
    rewrite length_skipn in Hsz.
    repeat split.
    + cbn [List.concat]. rewrite <- app_assoc, <- Hfile, firstn_skipn. reflexivity.
    + constructor; [|assumption]. unfold full_block. rewrite length_firstn. lia.
    + assumption.
    + cbn [List.length]. lia.
    + cbn [List.length]. lia.
Qed.

Lemma payloads_sent_up_rounds (chunks : list (list byte)) :
  forall first, payloads (sent (up_rounds a first chunks)) = chunks.
Proof.
  induction chunks as [|c cs IH]; intros first; cbn [up_rounds]; [reflexivity|].
  rewrite payloads_sent_one.
  change (sent (Recvd :: up_rounds a (first + 1) cs))
    with (sent (up_rounds a (first + 1) cs)).
  rewrite IH. reflexivity.
Qed.

Lemma datagrams_sent_up_rounds (chunks : list (list byte)) :
  forall first,
    map Datagram (sent (up_rounds a first chunks)) = datas_from first chunks.
Proof.
  induction chunks as [|c cs IH]; intros first; cbn [up_rounds datas_from];
    [reflexivity|].
  change (sent (Sendto (data_packet first c) a :: Recvd :: up_rounds a (first + 1) cs))
    with (data_packet first c :: sent (up_rounds a (first + 1) cs)).
  cbn [map]. rewrite IH. reflexivity.
Qed.

(** A file below the block limit, sent to a server that acknowledges every
    block: the run, in terms of the file's blocks. *)
Lemma honest_upload (filename : string) (content : list byte) (n : nat)
    (inbox : list Recv) :
  (List.length content < 512 * n)%nat -> Z.of_nat n <= 65535 ->
  exists chunks last,
    content = List.concat chunks ++ last
    /\ Forall full_block chunks
    /\ (List.length last < 512)%nat
    /\ (List.length chunks < n)%nat
    /\ handle_put filename a (Some content) (acks_from 1 n ++ inbox)
       = mkRun (OpenRead
                  :: (up_rounds a 1 (chunks ++ [last]) ++ [Print UploadSuccessful])
                  ++ [CloseFile])
               (Some content) Returned.
Proof.
  intros Hlen Hn.
  destruct (file_blocks n content Hlen)
    as (chunks & last & Hfile & Hfull & Hlast & Hk & _).
  exists chunks, last. repeat split; try assumption.
  unfold handle_put.
  replace n with (S (List.length chunks) + (n - S (List.length chunks)))%nat
    at 1 by lia.
  rewrite acks_from_app, <- app_assoc.
  pose proof (put_success a chunks last
                (acks_from (1 + Z.of_nat (S (List.length chunks)))
                           (n - S (List.length chunks)) ++ inbox)
                0 Hfull Hlast) as H.
  change (0 + 1) with 1 in H.
  rewrite Hfile at 1. rewrite H by lia. reflexivity.
Qed.

(** Both loops send to the server's address only. *)
Lemma put_loop_destinations (inbox : list Recv) :
  forall (file : list byte) (bn : Z),
    Forall (eq a) (destinations (fst (put_loop a inbox file bn))).
Proof.
  induction inbox as [|r inbox IH]; intros file bn; cbn [put_loop read];
    destruct (pack_HH (OPCODES DATA) (bn + 1)) as [header|e];
    try (constructor; fail).
  - repeat constructor.
  - destruct r as [d|]; [|repeat constructor].
    destruct (decode (firstn BUFFER_SIZE d)) as [[opcode ack_block]|e];
      [|repeat constructor].
    destruct (negb (opcode =? OPCODES ACK) || negb (ack_block =? bn + 1));
      [repeat constructor|].
    destruct (List.length (firstn 512 file) <? 512)%nat; [repeat constructor|].
    constructor; [reflexivity|]. exact (IH (skipn 512 file) (bn + 1)).
Qed.

Lemma get_loop_destinations (inbox : list Recv) :
  forall (file : list byte) (bn : Z),
    Forall (eq a) (destinations (fst (get_loop a inbox file bn))).
Proof.
  induction inbox as [|r inbox IH]; intros file bn; cbn [get_loop];
    [constructor|].
  destruct r as [d|]; [|constructor].
  destruct (decode (firstn BUFFER_SIZE d)) as [[opcode received_block]|e];
    [|constructor].
  destruct (negb (opcode =? OPCODES DATA) || negb (received_block =? bn + 1));
    [constructor|].
  unfold send_ack.
  destruct (pack_HH (OPCODES ACK) received_block) as [packet|e]; [|constructor].
  cbn [bind].
  destruct (List.length (skipn 4 (firstn BUFFER_SIZE d)) <? 512)%nat;
    [repeat constructor|].
  constructor; [reflexivity|].
  exact (IH (file ++ skipn 4 (firstn BUFFER_SIZE d)) received_block).
Qed.

Lemma destinations_app (t1 t2 : list Event) :
  destinations (t1 ++ t2) = destinations t1 ++ destinations t2.
Proof. apply flat_map_app. Qed.

End Uploads.

Section Exchange.

Variable a : Address.

Lemma concat_full_length (chunks : list (list byte)) :
  Forall full_block chunks ->
  List.length (List.concat chunks) = (512 * List.length chunks)%nat.
Proof.
  induction 1 as [|c cs Hc Hcs IH]; cbn [List.concat List.length]; [lia|].
  rewrite length_app, IH. unfold full_block in Hc. lia.
Qed.

Lemma datagrams_sent_down_rounds (ps : list (list byte)) :
  forall first,
    map Datagram (sent (down_rounds a first ps)) = acks_from first (List.length ps).
Proof.
  induction ps as [|p ps IH]; intros first;
    cbn [down_rounds acks_from List.length]; [reflexivity|].
  change (sent (Recvd :: Write p :: Sendto (ack_packet first) a
                  :: down_rounds a (first + 1) ps))
    with (ack_packet first :: sent (down_rounds a (first + 1) ps)).
  cbn [map]. rewrite IH. reflexivity.
Qed.

Lemma sent_then_report (tr : list Event) (m : Message) :
  sent (tr ++ [Print m]) = sent tr.
Proof. rewrite sent_app. cbn [sent flat_map app]. apply app_nil_r. Qed.

End Exchange.

(** X4.  Every datagram of a run, the request and every DATA or ACK packet
    after it, is sent to the server address given at the prompt (port 69
    when none was given), whatever arrives on the socket and whoever it
    comes from. *)
Theorem every_datagram_goes_to_the_server :
  forall (host : string) (port : option Z) (operation filename : string)
         (local : option (list byte)) (inbox : list Recv),
    let p := match port with Some p => p | None => 69 end in
    Forall (eq (host, p))
           (destinations (trace (main host port operation filename local inbox))).
Proof.
  intros host port operation filename local inbox. cbv zeta. unfold main.
  set (p := match port with Some p => p | None => 69 end).
  assert (Hwrap : forall m request opening tr,
             destinations [opening] = [] ->
             Forall (eq (host, p)) (destinations tr) ->
             Forall (eq (host, p))
                    (destinations (Print m :: Sendto request (host, p)
                                     :: (opening :: tr ++ [CloseFile]) ++ [CloseSock]))).
  { intros m request opening tr Hopen Htr.
    change (Print m :: Sendto request (host, p)
              :: (opening :: tr ++ [CloseFile]) ++ [CloseSock])
      with ([Print m; Sendto request (host, p)]
              ++ ([opening] ++ tr ++ [CloseFile]) ++ [CloseSock]).
    rewrite !destinations_app, Hopen. cbn [destinations flat_map app].
    rewrite !app_nil_r. constructor; [reflexivity | assumption]. }
  destruct (operation =? "get")%string.
  - destruct (build_request (OPCODES RRQ) filename octet) as [request|e];
      [|repeat constructor].
    destruct (sendto request (host, p)) as [request_sent|e] eqn:Hsend;
      [|repeat constructor].
    apply sendto_sent in Hsend. subst request_sent.
    destruct (open_wb filename) as [opened|e]; [|repeat constructor].
    unfold handle_get.
    pose proof (get_loop_destinations (host, p) inbox [] 0) as H.
    destruct (get_loop (host, p) inbox [] 0) as [tr [file o]].
    cbn [trace fst] in *. apply Hwrap; [reflexivity | assumption].
  - destruct (operation =? "put")%string; [|repeat constructor].
    destruct (build_request (OPCODES WRQ) filename octet) as [request|e];
      [|repeat constructor].
    destruct (sendto request (host, p)) as [request_sent|e] eqn:Hsend;
      [|repeat constructor].
    apply sendto_sent in Hsend. subst request_sent.
    unfold handle_put. destruct local as [content|]; [|repeat constructor].
    pose proof (put_loop_destinations (host, p) inbox content 0) as H.
    destruct (put_loop (host, p) inbox content 0) as [tr o].
    cbn [trace fst] in *. apply Hwrap; [reflexivity | assumption].
Qed.

(** X5.  Whatever the server answers, an upload sends the file's bytes in
    order and each at most once: the payloads of the DATA packets sent,
    put end to end, are the first bytes of the file, 512 per packet, and a
    packet is sent only when all the 512-byte blocks before it exist. *)
Theorem upload_sends_the_file_in_order :
  forall (filename : string) (a : Address) (content : list byte)
         (inbox : list Recv),
    let ps := payloads (sent (trace (handle_put filename a (Some content) inbox))) in
    List.concat ps = firstn (512 * List.length ps) content
    /\ (512 * (List.length ps - 1) <= List.length content)%nat.
Proof.
  intros filename a content inbox. cbv zeta. unfold handle_put.
  pose proof (put_loop_sends_prefix a inbox content 0) as H. cbv zeta in H.
  destruct (put_loop a inbox content 0) as [tr o]. cbn [fst trace] in *.
  rewrite sent_file_session by reflexivity. apply H. lia.
Qed.

(** X6.  An upload prints "Upload successful." only when the local file
    exists and every byte of it has been sent: the payloads of the DATA
    packets, put end to end, are the file; and the call then returns. *)
Theorem upload_success_means_whole_file_sent :
  forall (filename : string) (a : Address) (local : option (list byte))
         (inbox : list Recv),
    let r := handle_put filename a local inbox in
    In (Print UploadSuccessful) (trace r) ->
    exists content,
      local = Some content
      /\ List.concat (payloads (sent (trace r))) = content
      /\ outcome r = Returned.
Proof.
  intros filename a local inbox. cbv zeta. unfold handle_put.
  destruct local as [content|].
  - pose proof (put_loop_success_is_whole a inbox content 0) as H.
    destruct (put_loop a inbox content 0) as [tr o]. cbn [fst snd trace outcome] in *.
    intros [Habs|Hin]; [discriminate Habs|].
    apply in_app_or in Hin. destruct Hin as [Hin|[Habs|[]]]; [|discriminate Habs].
    exists content. rewrite sent_file_session by reflexivity.
    destruct H as [Hcat Hret]; [lia | assumption |]. auto.
  - cbn [trace]. intros [Habs|[]]. discriminate Habs.
Qed.

Lemma upload_success_means_whole_file_sent_witness :
  List.concat (payloads (sent (trace (handle_put "f" ("h"%string, 69)
                                        (Some [x01; x02; x03])
                                        [Datagram (ack_packet 1)]))))
  = [x01; x02; x03].
Proof.
  destruct (upload_success_means_whole_file_sent "f" ("h"%string, 69)
              (Some [x01; x02; x03]) [Datagram (ack_packet 1)])
    as (content & Hlocal & Hcat & _).
  - vm_compute. auto.
  - injection Hlocal as <-. exact Hcat.
Defined.

(** X7.  A file shorter than 65535 * 512 bytes whose every block the server
    acknowledges is uploaded whole and reported successful: the DATA
    payloads put end to end are the file, and the number of DATA packets
    is the number of its full 512-byte blocks plus one. *)
Theorem acknowledged_upload_succeeds :
  forall (filename : string) (a : Address) (content : list byte) (n : nat)
         (inbox : list Recv),
    (List.length content < 512 * n)%nat -> Z.of_nat n <= 65535 ->
    let r := handle_put filename a (Some content) (acks_from 1 n ++ inbox) in
    outcome r = Returned
    /\ In (Print UploadSuccessful) (trace r)
    /\ List.concat (payloads (sent (trace r))) = content
    /\ (512 * (List.length (sent (trace r)) - 1) <= List.length content
        < 512 * List.length (sent (trace r)))%nat.
Proof.
  intros filename a content n inbox Hlen Hn. cbv zeta.
  destruct (honest_upload a filename content n inbox Hlen Hn)
    as (chunks & last & Hfile & Hfull & Hlast & _ & ->).
  cbn [trace outcome].
  rewrite sent_file_session by reflexivity. rewrite sent_then_report.
  assert (Hcount : List.length (sent (up_rounds a 1 (chunks ++ [last])))
                   = S (List.length chunks)).
  { rewrite <- (length_map (skipn 4)). fold (payloads (sent (up_rounds a 1 (chunks ++ [last])))).
    rewrite payloads_sent_up_rounds, length_app. cbn [List.length]. lia. }
  split; [reflexivity|]. split.
  { right. apply in_or_app. left. apply in_or_app. right. left. reflexivity. }
  split.
  { rewrite payloads_sent_up_rounds, concat_app. cbn [List.concat].
    rewrite app_nil_r. symmetry. exact Hfile. }
  rewrite Hcount, Hfile, length_app, (concat_full_length chunks Hfull). lia.
Qed.

Lemma acknowledged_upload_succeeds_witness :
  outcome (handle_put "f" ("h"%string, 69) (Some (repeat x2a 600))
                      (acks_from 1 2 ++ []))
  = Returned.
Proof.
  apply (acknowledged_upload_succeeds "f" ("h"%string, 69) (repeat x2a 600) 2 []).
  - rewrite repeat_length. apply Nat.ltb_lt. reflexivity.
  - lia.
Defined.

(** X8.  The two directions agree.  The DATA packets that an upload of a
    file (shorter than 65535 * 512 bytes, every block acknowledged) sends,
    handed in the same order to a download, make that download succeed and
    leave exactly the uploaded file on disk; and the ACK packets the
    download answers are, one for one, those the upload waited for. *)
Theorem upload_then_download_round_trip :
  forall (up_name down_name : string) (up_addr down_addr : Address)
         (content : list byte) (local : option (list byte)) (n : nat),
    (List.length content < 512 * n)%nat -> Z.of_nat n <= 65535 ->
    let up := handle_put up_name up_addr (Some content) (acks_from 1 n) in
    let down := handle_get down_name down_addr local
                  (map Datagram (sent (trace up))) in
    disk down = Some content
    /\ outcome down = Returned
    /\ In (Print DownloadSuccessful) (trace down)
    /\ map Datagram (sent (trace down))
       = acks_from 1 (List.length (sent (trace up))).
Proof.
  intros up_name down_name up_addr down_addr content local n Hlen Hn. cbv zeta.
  destruct (honest_upload up_addr up_name content n [] Hlen Hn)
    as (chunks & last & Hfile & Hfull & Hlast & Hk & Hup).
  rewrite app_nil_r in Hup. rewrite Hup. cbn [trace].
  rewrite sent_file_session by reflexivity. rewrite sent_then_report.
  rewrite datagrams_sent_up_rounds.
  unfold handle_get.
  pose proof (get_success down_addr chunks last [] [] 0 Hfull Hlast) as H.
  change (0 + 1) with 1 in H. rewrite app_nil_r in H.
  rewrite H by lia. cbn [trace disk outcome app].
  split; [rewrite Hfile; reflexivity|]. split; [reflexivity|]. split.
  { right. apply in_or_app. left. apply in_or_app. right. left. reflexivity. }
  rewrite sent_file_session by reflexivity. rewrite sent_then_report.
  rewrite datagrams_sent_down_rounds.
  rewrite <- (length_map Datagram (sent (up_rounds up_addr 1 (chunks ++ [last])))).
  rewrite datagrams_sent_up_rounds.
  f_equal. clear. generalize 1 at 1. generalize (chunks ++ [last]).
  induction l as [|c cs IH]; intros first; cbn [datas_from List.length];
    [reflexivity | rewrite <- IH; reflexivity].
Qed.

Lemma upload_then_download_round_trip_witness :
  disk (handle_get "copy" ("h"%string, 69) None
          (map Datagram
             (sent (trace (handle_put "orig" ("h"%string, 69)
                             (Some (repeat x2a 600)) (acks_from 1 2))))))
  = Some (repeat x2a 600).
Proof.
  apply (upload_then_download_round_trip "orig" "copy" ("h"%string, 69)
           ("h"%string, 69) (repeat x2a 600) None 2).
  - rewrite repeat_length. apply Nat.ltb_lt. reflexivity.
  - lia.
Defined.

(** ** Downloads, whatever the server sends *)

Section Receiving.

Variable a : Address.

Lemma received_payload_length (d : list byte) :
  (List.length (skipn 4 (firstn BUFFER_SIZE d)) <= 512)%nat.
Proof. rewrite length_skipn, length_firstn. unfold BUFFER_SIZE. lia. Qed.

(** What one iteration of the download loop does, by cases. *)
Lemma get_loop_cases (inbox : list Recv) (file : list byte) (bn : Z) :
  0 <= bn ->
  (exists tail o,
      get_loop a inbox file bn = (tail, (file, o))
      /\ sent tail = [] /\ written tail = []
      /\ ~ In (Print DownloadSuccessful) tail)
  \/ (exists d inbox' block,
         inbox = Datagram d :: inbox' /\ 0 <= block
         /\ (List.length (received_payload d) <= 512)%nat
         /\ ((List.length (received_payload d) < 512)%nat
             /\ get_loop a inbox file bn
                = ([Recvd; Write (received_payload d);
                    Sendto (ack_packet block) a; Print DownloadSuccessful],
                   (file ++ received_payload d, Returned))
             \/ List.length (received_payload d) = 512%nat
                /\ get_loop a inbox file bn
                   = emit [Recvd; Write (received_payload d);
                           Sendto (ack_packet block) a]
                          (get_loop a inbox' (file ++ received_payload d) block))).
Proof.
  intros Hbn. destruct inbox as [|[d|] inbox'].
  - left. eexists _, _. split; [reflexivity|]. cbn. intuition discriminate.
  - destruct (decode_cases d) as [[Hlen Hd]|(Hlen & opcode & block & Hd & Hop & Hblk)].
    + left. eexists _, _. split; [apply get_loop_short; assumption|].
      cbn. intuition discriminate.
    + destruct (Z.eq_dec opcode (OPCODES DATA)) as [->|Hopc];
        [destruct (Z.eq_dec block (bn + 1)) as [->|Hblock]|].
      * right. exists d, inbox', (bn + 1).
        pose proof (received_payload_length d) as Hmax.
        fold (received_payload d) in Hmax.
        split; [reflexivity|]. split; [lia|]. split; [assumption|].
        rewrite get_loop_accept_any by (assumption || lia).
        fold (received_payload d).
        destruct (List.length (received_payload d) <? 512)%nat eqn:Hshort.
        -- left. apply Nat.ltb_lt in Hshort. split; [assumption | reflexivity].
        -- right. apply Nat.ltb_ge in Hshort. split; [lia | reflexivity].
      * left. eexists _, _.
        split; [apply (get_loop_reject a d inbox' file bn _ _ Hd); auto|].
        cbn. intuition discriminate.
      * left. eexists _, _.
        split; [apply (get_loop_reject a d inbox' file bn _ _ Hd); auto|].
        cbn. intuition discriminate.
  - left. eexists _, _. split; [reflexivity|]. cbn. intuition discriminate.
Qed.

(** What is on disk is what was written; every write is acknowledged; no
    write exceeds 512 bytes. *)
Lemma get_loop_writes (inbox : list Recv) :
  forall (file : list byte) (bn : Z),
    0 <= bn ->
    let r := get_loop a inbox file bn in
    fst (snd r) = file ++ List.concat (written (fst r))
    /\ List.length (sent (fst r)) = List.length (written (fst r))
    /\ Forall (fun d => (List.length d <= 512)%nat) (written (fst r)).
Proof.
  induction inbox as [|r inbox IH]; intros file bn Hbn; cbv zeta;
    match goal with
    | |- context [get_loop a ?i file bn] =>
        destruct (get_loop_cases i file bn Hbn)
          as [(tail & o & E & Hsent & Hwritten & _)
             |(d & inbox' & block & Hin & Hblock & Hmax & [[Hshort E]|[Hfull E]])]
    end;
    try discriminate Hin.
  1, 2: rewrite E; cbn [fst snd]; rewrite Hsent, Hwritten;
    cbn [List.concat List.length]; rewrite app_nil_r; repeat split; constructor.
  - rewrite E. cbn [fst snd written sent flat_map app List.concat List.length].
    rewrite app_nil_r. repeat split. constructor; [assumption | constructor].
  - injection Hin as Hr Hi. subst r inbox'. rewrite E.
    destruct (IH (file ++ received_payload d) block Hblock) as (Hdisk & Hack & Hsize).
    destruct (get_loop a inbox (file ++ received_payload d) block) as [tr [file' o]].
    cbn [emit fst snd app written sent flat_map List.concat List.length] in *.
    rewrite Hdisk, <- app_assoc, Hack.
    repeat split. constructor; assumption.
Qed.

(** A download that does not report success has written full blocks
    only. *)
Lemma get_loop_unfinished (inbox : list Recv) :
  forall (file : list byte) (bn : Z),
    0 <= bn ->
    let r := get_loop a inbox file bn in
    ~ In (Print DownloadSuccessful) (fst r) ->
    exists k : nat,
      List.length (fst (snd r)) = (List.length file + 512 * k)%nat.
Proof.
  induction inbox as [|r inbox IH]; intros file bn Hbn; cbv zeta;
    match goal with
    | |- context [get_loop a ?i file bn] =>
        destruct (get_loop_cases i file bn Hbn)
          as [(tail & o & E & _)
             |(d & inbox' & block & Hin & Hblock & Hmax & [[Hshort E]|[Hfull E]])]
    end;
    try discriminate Hin.
  1, 2: rewrite E; cbn [fst snd]; intros _; exists 0%nat; lia.
  - rewrite E. cbn [fst]. intros Hno. exfalso. apply Hno.
    right. right. right. left. reflexivity.
  - injection Hin as Hr Hi. subst r inbox'. rewrite E.
    specialize (IH (file ++ received_payload d) block Hblock). cbv zeta in IH.
    destruct (get_loop a inbox (file ++ received_payload d) block) as [tr [file' o]].
    cbn [emit fst snd app] in *. intros Hno.
    destruct IH as [k Hk].
    { intros Hin. apply Hno. right. right. right. assumption. }
    exists (S k). rewrite Hk, length_app, Hfull. lia.
Qed.

(** Only the first bytes of a datagram count: four of a reply to an
    upload, [BUFFER_SIZE] of a datagram of a download. *)
Lemma put_loop_first_bytes (inbox : list Recv) :
  forall (file : list byte) (bn : Z),
    put_loop a (map (first_bytes 4) inbox) file bn = put_loop a inbox file bn.
Proof.
  induction inbox as [|r inbox IH]; intros file bn; [reflexivity|].
  destruct r as [d|]; [|reflexivity].
  cbn [map first_bytes put_loop read].
  destruct (pack_HH (OPCODES DATA) (bn + 1)) as [header|e]; [|reflexivity].
  replace (decode (firstn BUFFER_SIZE (firstn 4 d)))
    with (decode (firstn BUFFER_SIZE d))
    by (rewrite !decode_received; unfold decode; rewrite firstn_firstn;
        reflexivity).
  destruct (decode (firstn BUFFER_SIZE d)) as [[opcode ack_block]|e];
    [|reflexivity].
  destruct (negb (opcode =? OPCODES ACK) || negb (ack_block =? bn + 1));
    [reflexivity|].
  destruct (List.length (firstn 512 file) <? 512)%nat; [reflexivity|].
  rewrite IH. reflexivity.
Qed.

Lemma get_loop_first_bytes (inbox : list Recv) :
  forall (file : list byte) (bn : Z),
    get_loop a (map (first_bytes BUFFER_SIZE) inbox) file bn
    = get_loop a inbox file bn.
Proof.
  induction inbox as [|r inbox IH]; intros file bn; [reflexivity|].
  destruct r as [d|]; [|reflexivity].
  cbn [map first_bytes get_loop]. rewrite firstn_firstn, Nat.min_id.
  destruct (decode (firstn BUFFER_SIZE d)) as [[opcode received_block]|e];
    [|reflexivity].
  destruct (negb (opcode =? OPCODES DATA) || negb (received_block =? bn + 1));
    [reflexivity|].
  destruct (send_ack received_block a) as [ack|e]; [|reflexivity].
  destruct (List.length (skipn 4 (firstn BUFFER_SIZE d)) <? 512)%nat;
    [reflexivity|].
  rewrite IH. reflexivity.
Qed.

End Receiving.

Lemma written_file_session (tr : list Event) :
  written (OpenWrite :: tr ++ [CloseFile]) = written tr.
Proof.
  change (OpenWrite :: tr ++ [CloseFile]) with ([OpenWrite] ++ tr ++ [CloseFile]).
  rewrite !written_app. cbn [written flat_map app]. apply app_nil_r.
Qed.

Lemma put_loop_short (a : Address) (d : list byte) (inbox : list Recv)
    (file : list byte) (bn : Z) :
  0 <= bn < 65535 -> (List.length d < 4)%nat ->
  put_loop a (Datagram d :: inbox) file bn
  = ([Sendto (data_packet (bn + 1) (firstn 512 file)) a; Recvd],
     Raised struct_error).
Proof.
  intros Hbn Hd. rewrite put_loop_reply by lia.
  destruct (decode_cases d) as [[_ E]|[Hlen _]]; [|lia].
  rewrite E. reflexivity.
Qed.

(** X9.  Whatever the server sends, a download leaves on disk exactly the
    chunks it wrote, in the order it wrote them; it acknowledges every
    chunk it writes (as many ACK packets as writes); and no write is
    longer than 512 bytes, however long the datagrams are. *)
Theorem download_writes_and_acknowledges :
  forall (filename : string) (a : Address) (local : option (list byte))
         (inbox : list Recv),
    let r := handle_get filename a local inbox in
    disk r = Some (List.concat (written (trace r)))
    /\ List.length (sent (trace r)) = List.length (written (trace r))
    /\ Forall (fun d => (List.length d <= 512)%nat) (written (trace r)).
Proof.
  intros filename a local inbox. cbv zeta. unfold handle_get.
  pose proof (get_loop_writes a inbox [] 0) as H. cbv zeta in H.
  destruct (get_loop a inbox [] 0) as [tr [file o]].
  cbn [fst snd trace disk] in *.
  destruct H as (Hdisk & Hack & Hsize); [lia|].
  rewrite written_file_session, sent_file_session by reflexivity.
  rewrite Hdisk. auto.
Qed.

(** X10.  A download that does not print "Download successful." leaves a
    local file whose size is a multiple of 512 bytes: only full blocks have
    been written when a download fails. *)
Theorem unfinished_download_holds_full_blocks :
  forall (filename : string) (a : Address) (local : option (list byte))
         (inbox : list Recv),
    let r := handle_get filename a local inbox in
    ~ In (Print DownloadSuccessful) (trace r) ->
    exists (content : list byte) (k : nat),
      disk r = Some content /\ List.length content = (512 * k)%nat.
Proof.
  intros filename a local inbox. cbv zeta. unfold handle_get.
  pose proof (get_loop_unfinished a inbox [] 0) as H. cbv zeta in H.
  destruct (get_loop a inbox [] 0) as [tr [file o]].
  cbn [fst snd trace disk] in *. intros Hno.
  destruct H as [k Hk]; [lia | |].
  - intros Hin. apply Hno. right. apply in_or_app. left. assumption.
  - exists file, k. split; [reflexivity|]. rewrite Hk. reflexivity.
Qed.

Lemma unfinished_download_holds_full_blocks_witness :
  exists (content : list byte) (k : nat),
    disk (handle_get "f" ("h"%string, 69) None
            [Datagram (data_packet 1 (repeat x07 512)); Silence])
    = Some content
    /\ List.length content = (512 * k)%nat.
Proof.
  apply (unfinished_download_holds_full_blocks "f" ("h"%string, 69) None
           [Datagram (data_packet 1 (repeat x07 512)); Silence]).
  vm_compute. intuition discriminate.
Defined.

(** X11.  At any point of a transfer, a datagram shorter than 4 bytes makes
    [struct.unpack] raise [struct.error], which nothing catches: the
    download, or the upload after the DATA packet it has just sent, stops
    there without printing a report, writing or acknowledging anything. *)
Theorem short_datagram_raises_struct_error :
  forall (a : Address) (d : list byte) (inbox : list Recv)
         (file : list byte) (block_number : Z),
    (List.length d < 4)%nat ->
    get_loop a (Datagram d :: inbox) file block_number
    = ([Recvd], (file, Raised struct_error))
    /\ (0 <= block_number < 65535 ->
        put_loop a (Datagram d :: inbox) file block_number
        = ([Sendto (data_packet (block_number + 1) (firstn 512 file)) a; Recvd],
           Raised struct_error)).
Proof.
  intros a d inbox file bn Hd. split.
  - apply get_loop_short. assumption.
  - intros Hbn. apply put_loop_short; assumption.
Qed.

Lemma short_datagram_raises_struct_error_witness :
  handle_get "f" ("h"%string, 69) (Some [x01]) [Datagram [x00; x03; x00]]
  = mkRun [OpenWrite; Recvd; CloseFile] (Some []) (Raised struct_error).
Proof.
  unfold handle_get.
  destruct (short_datagram_raises_struct_error ("h"%string, 69) [x00; x03; x00]
              [] [] 0) as [Hget _].
  - cbn. lia.
  - rewrite Hget. reflexivity.
Defined.

(** X12.  For any operation other than "get" and "put" the client prints
    the usage error and closes the socket: it builds no request, sends no
    datagram, waits for none and leaves the local file as it is. *)
Theorem invalid_operation_sends_nothing :
  forall (host : string) (port : option Z) (operation filename : string)
         (local : option (list byte)) (inbox : list Recv),
    operation <> "get"%string -> operation <> "put"%string ->
    main host port operation filename local inbox
    = mkRun [Print InvalidOperation; CloseSock] local Returned.
Proof.
  intros host port operation filename local inbox Hget Hput. unfold main.
  apply String.eqb_neq in Hget. apply String.eqb_neq in Hput.
  rewrite Hget, Hput. reflexivity.
Qed.

Lemma invalid_operation_sends_nothing_witness :
  main "h" (Some 6969) "list" "f" (Some [x01]) [Datagram [x00; x04; x00; x01]]
  = mkRun [Print InvalidOperation; CloseSock] (Some [x01]) Returned.
Proof.
  apply invalid_operation_sends_nothing; discriminate.
Defined.

(** X13.  Only the first bytes of a datagram count.  An upload looks at the
    first four bytes of each reply, so an ACK followed by anything is an
    ACK; a download looks at the first [BUFFER_SIZE] = 516 bytes of each
    datagram, so a longer DATA packet loses what exceeds 512 payload
    bytes.  Runs on the cut datagrams are the same runs. *)
Theorem only_first_bytes_of_datagram_count :
  forall (filename : string) (a : Address) (local : option (list byte))
         (inbox : list Recv),
    handle_put filename a local (map (first_bytes 4) inbox)
    = handle_put filename a local inbox
    /\ handle_get filename a local (map (first_bytes BUFFER_SIZE) inbox)
       = handle_get filename a local inbox.
Proof.
  intros filename a local inbox. split.
  - unfold handle_put. destruct local as [content|]; [|reflexivity].
    rewrite put_loop_first_bytes. reflexivity.
  - unfold handle_get. rewrite get_loop_first_bytes. reflexivity.
Qed.

(** X14.  In a download, a datagram of at least 4 bytes that is not the DATA
    packet of the next block (another opcode, or a block number other than
    the last accepted one plus 1: a repeated block, a skipped one) ends the
    transfer with "Invalid DATA packet received.": it is neither written
    nor acknowledged, and the loop is left without a further wait. *)
Theorem unexpected_data_ends_download :
  forall (a : Address) (d : list byte) (inbox : list Recv)
         (file : list byte) (block_number opcode block : Z),
    decode d = Ok (opcode, block) ->
    opcode <> OPCODES DATA \/ block <> block_number + 1 ->
    get_loop a (Datagram d :: inbox) file block_number
    = ([Recvd; Print InvalidData], (file, Returned)).
Proof.
  intros a d inbox file bn opcode block Hd Hbad.
  cbn [get_loop]. rewrite decode_received, Hd.
  destruct Hbad as [Hop|Hblock].
  - apply Z.eqb_neq in Hop. rewrite Hop. reflexivity.
  - apply Z.eqb_neq in Hblock. rewrite Hblock, orb_true_r. reflexivity.
Qed.

Lemma unexpected_data_ends_download_witness :
  let p := repeat x07 512 in
  handle_get "f" ("h"%string, 69) None
    [Datagram (data_packet 1 p); Datagram (data_packet 1 p);
     Datagram (data_packet 2 p)]
  = mkRun [OpenWrite; Recvd; Write p; Sendto (ack_packet 1) ("h"%string, 69);
           Recvd; Print InvalidData; CloseFile]
          (Some p) Returned.
Proof.
  cbv zeta. unfold handle_get.
  rewrite (get_loop_accept ("h"%string, 69) (repeat x07 512) _ [] 0)
    by (rewrite ?repeat_length; lia).
  rewrite repeat_length. change (512 <? 512)%nat with false. cbv iota.
  rewrite (unexpected_data_ends_download ("h"%string, 69)
             (data_packet 1 (repeat x07 512))
             [Datagram (data_packet 2 (repeat x07 512))]
             ([] ++ repeat x07 512) (0 + 1) 3 1).
  - reflexivity.
  - reflexivity.
  - right. discriminate.
Defined.




